(** * function_app.py: five HTTP handlers over one [items] table

    A shallow embedding of [src/function_app.py].  The handlers are
    written in a state-and-exception monad over a [World] that holds what
    the Python module shares between requests: the psycopg2 connection
    pool, the database behind it and the log.  Everything the module calls
    but does not define (psycopg2, PostgreSQL, the Functions host) is part
    of that world, and is modelled only as far as the handlers can observe
    it:
    - requests are served one after the other;
    - a call that reaches the server may fail: the world carries the
      list of what the coming calls will do, and the properties that hold
      whatever the server does are stated for every such list;
    - the world records the calls made to the pool and to the server, so
      that "after [getconn] and before [putconn]" can be said;
    - what the schema of [items] decides, which is not in the
      repository, is a parameter of the handlers. *)

From stdpp Require Import base option list strings gmap fin_maps.
From Stdlib Require Import ZArith Lia.

Local Open Scope string_scope.
Local Open Scope Z_scope.

(** ** Python values *)

(** What [json.loads] returns and what psycopg2 hands back in a row.  A
    float is kept as mantissa and exponent; the handlers only ever test
    it for truth. *)
#[warnings="-register-all"]
Inductive pyval : Type :=
  | PyNone
  | PyBool (b : bool)
  | PyInt (z : Z)
  | PyFloat (m e : Z)
  | PyStr (s : string)
  | PyList (l : list pyval)
  | PyTuple (l : list pyval)
  | PyDict (d : list (string * pyval)).

(** Python's truth value, as used by [not name] and [if item:]. *)
Definition truthy (v : pyval) : bool :=
  match v with
  | PyNone => false
  | PyBool b => b
  | PyInt z => negb (z =? 0)
  | PyFloat m _ => negb (m =? 0)
  | PyStr s => negb (String.eqb s "")
  | PyList l | PyTuple l => negb (Nat.eqb (length l) O)
  | PyDict d => negb (Nat.eqb (length d) O)
  end.

(** ** Exceptions *)

Inductive exn_class : Type :=
  | Exception
  | ValueError | AttributeError | TypeError | LookupError | IndexError | KeyError
  | Psycopg2Error | InterfaceError | PoolError
  | DatabaseError | DataError | OperationalError | IntegrityError
  | InternalError | ProgrammingError | NotSupportedError.

Global Instance exn_class_eq_dec : EqDecision exn_class.
Proof. solve_decision. Defined.

(** The direct base class; [Exception] is the root of everything the
    calls made by the handlers can raise. *)
Definition base_class (c : exn_class) : option exn_class :=
  match c with
  | Exception => None
  | ValueError | AttributeError | TypeError | LookupError => Some Exception
  | IndexError | KeyError => Some LookupError
  | Psycopg2Error => Some Exception
  | InterfaceError | DatabaseError | PoolError => Some Psycopg2Error
  | DataError | OperationalError | IntegrityError
  | InternalError | ProgrammingError | NotSupportedError => Some DatabaseError
  end.

Fixpoint issubclass_upto (fuel : nat) (c d : exn_class) : bool :=
  if decide (c = d) then true
  else match fuel, base_class c with
       | S fuel', Some b => issubclass_upto fuel' b d
       | _, _ => false
       end.

(** No chain of base classes is longer than four. *)
Definition issubclass : exn_class → exn_class → bool := issubclass_upto 4.

Record exn : Type := mk_exn { exn_cls : exn_class; exn_msg : string }.

Definition isinstance (e : exn) (c : exn_class) : bool :=
  issubclass (exn_cls e) c.

(** ** The world outside the handlers *)

(** A row of [items] without its key: the [name] and [description]
    columns, as psycopg2 returns them. *)
Abbreviation Table := (gmap Z (pyval * pyval)).

(** [pool.SimpleConnectionPool]: its configuration, the number of idle
    connections it keeps ([_pool]) and of connections handed out
    ([_used]). *)
Record Pool : Type := mk_pool {
  minconn : nat;
  maxconn : nat;
  kwargs : list (string * option string);
  idle : nat;
  used : nat
}.

(** Calls that leave the process, in the order they were made. *)
Inductive Event : Type :=
  | EvGetconn
  | EvPutconn
  | EvExecute (sql : string) (params : list pyval)
  | EvCommit.

Record World : Type := mk_world {
  db_pool : Pool;
  (** committed rows of [items] *)
  table : Table;
  (** next value of the sequence behind [id] *)
  seq : Z;
  (** rows as seen by the transaction open on the connection the running
      handler holds, if it has opened one *)
  txn : option Table;
  (** what the next calls to the database will do: [Some e] makes the
      call raise [e], [None] lets it through; once the list is used up
      every call goes through *)
  faults : list (option exn);
  (** messages passed to [logging.error], latest first *)
  log : list string;
  (** latest first *)
  events : list Event
}.

Definition set_pool (p : Pool) (w : World) : World :=
  mk_world p (table w) (seq w) (txn w) (faults w) (log w) (events w).
Definition set_table (t : Table) (w : World) : World :=
  mk_world (db_pool w) t (seq w) (txn w) (faults w) (log w) (events w).
Definition set_seq (n : Z) (w : World) : World :=
  mk_world (db_pool w) (table w) n (txn w) (faults w) (log w) (events w).
Definition set_txn (t : option Table) (w : World) : World :=
  mk_world (db_pool w) (table w) (seq w) t (faults w) (log w) (events w).
Definition set_faults (f : list (option exn)) (w : World) : World :=
  mk_world (db_pool w) (table w) (seq w) (txn w) f (log w) (events w).
Definition add_log (s : string) (w : World) : World :=
  mk_world (db_pool w) (table w) (seq w) (txn w) (faults w) (s :: log w) (events w).
Definition add_event (ev : Event) (w : World) : World :=
  mk_world (db_pool w) (table w) (seq w) (txn w) (faults w) (log w) (ev :: events w).

Definition set_idle_used (i u : nat) (p : Pool) : Pool :=
  mk_pool (minconn p) (maxconn p) (kwargs p) i u.

(** ** The monad: state plus Python exceptions *)

Inductive Outcome (A : Type) : Type :=
  | Returned (a : A)
  | Raised (e : exn).
Arguments Returned {A} a.
Arguments Raised {A} e.

Definition M (A : Type) : Type := World → Outcome A * World.

Definition ret {A} (a : A) : M A := λ w, (Returned a, w).
Definition raise {A} (e : exn) : M A := λ w, (Raised e, w).
Definition bind {A B} (c : M A) (k : A → M B) : M B :=
  λ w, match c w with
       | (Returned a, w') => k a w'
       | (Raised e, w') => (Raised e, w')
       end.
Definition modify (f : World → World) : M unit := λ w, (Returned tt, f w).
Definition gets {A} (f : World → A) : M A := λ w, (Returned (f w), w).
Definition lift {A} (r : exn + A) : M A :=
  match r with inl e => raise e | inr a => ret a end.

Declare Scope py_scope.
Delimit Scope py_scope with py.
Notation "'do' x <- c ; k" := (bind c (λ x, k))
  (at level 10, x name, c at level 100, k at level 200,
   format "'[v' 'do'  x  <-  c ; '/' k ']'") : py_scope.
Local Open Scope py_scope.

(** [try: body except c1 as e: h1 e except c2 as e: h2 e ...]: the first
    clause whose class the exception is an instance of runs; with no such
    clause the exception propagates. *)
Definition try_except {A} (body : M A)
    (clauses : list (exn_class * (exn → M A))) : M A :=
  λ w, match body w with
       | (Returned a, w') => (Returned a, w')
       | (Raised e, w') =>
           match find (λ cl, isinstance e cl.1) clauses with
           | Some cl => cl.2 e w'
           | None => (Raised e, w')
           end
       end.

Definition logging_error (msg : string) : M unit := modify (add_log msg).

(** A call that reaches the database server takes the next entry of
    [faults]. *)
Definition server_call : M unit :=
  λ w, match faults w with
       | [] => (Returned tt, w)
       | None :: fs => (Returned tt, set_faults fs w)
       | Some e :: fs => (Raised e, set_faults fs w)
       end.

(** ** psycopg2's pool *)

(** A connection handle; what the connection has done so far is in the
    world. *)
Inductive Connection : Type := connection.


(** [SimpleConnectionPool(minconn, maxconn, **kwargs)]: opens [minconn]
    connections and keeps them idle. *)
Definition SimpleConnectionPool (minconn maxconn : nat)
    (kwargs : list (string * option string)) : Pool :=
  mk_pool minconn maxconn kwargs minconn O.

(** [db_pool.getconn()]: an idle connection if there is one; otherwise a
    new one, unless [maxconn] are out already. Opening a new connection
    reaches the server. A connection that is handed out has no open
    transaction. *)
Definition getconn : M Connection :=
  do p <- gets db_pool;
  do _ <- match idle p with
     | S i => modify (set_pool (set_idle_used i (S (used p)) p))
     | O =>
         if Nat.eqb (used p) (maxconn p)
         then raise (mk_exn PoolError "connection pool exhausted")
         else do _ <- server_call;
              modify (set_pool (set_idle_used O (S (used p)) p))
     end;
  do _ <- modify (set_txn None);
  do _ <- modify (add_event EvGetconn);
  ret connection.

(** [db_pool.putconn(conn)]: the connection goes back among the idle
    ones while fewer than [minconn] are kept (an open transaction is
    rolled back first), and is closed otherwise; either way it no longer
    counts as used. *)
Definition putconn (conn : Connection) : M unit :=
  do p <- gets db_pool;
  match used p with
  | O => raise (mk_exn PoolError "trying to put unkeyed connection")
  | S u =>
      do _ <- modify (set_txn None);
      do _ <- modify (set_pool (set_idle_used
                   (if Nat.ltb (idle p) (minconn p) then S (idle p) else idle p)
                   u p));
      modify (add_event EvPutconn)
  end.

(** Connections the pool can still hand out. *)
Definition available (w : World) : nat :=
  (maxconn (db_pool w) - used (db_pool w))%nat.

(** ** Requests and responses of the Functions host *)

(** The body is kept as what [json.loads] makes of it, [None] when it is
    not JSON; [route_params] are the strings matched by the route. *)
Record HttpRequest : Type := mk_request {
  json_body : option pyval;
  route_params : gmap string string
}.

(** A body is a literal text or [json.dumps] of a value. *)
Inductive Body : Type :=
  | Text (s : string)
  | JsonDumps (v : pyval).

Record HttpResponse : Type := mk_response {
  body : Body;
  status_code : Z;
  mimetype : option string
}.

Definition Response (b : Body) (status : Z) : HttpResponse :=
  mk_response b status None.

(** [req.get_json()] *)
Definition get_json (req : HttpRequest) : M pyval :=
  match json_body req with
  | Some v => ret v
  | None => raise (mk_exn ValueError "HTTP request does not contain valid JSON data")
  end.

(** [req.route_params.get(key)] *)
Definition route_params_get (req : HttpRequest) (key : string) : option string :=
  route_params req !! key.

(** A route parameter as a Python value, and as an f-string prints it. *)
Definition of_param (o : option string) : pyval :=
  match o with Some s => PyStr s | None => PyNone end.
Definition format_param (o : option string) : string := default "None" o.

Fixpoint dict_lookup (key : string) (d : list (string * pyval)) : option pyval :=
  match d with
  | [] => None
  | (k, v) :: d' => if String.eqb k key then Some v else dict_lookup key d'
  end.

(** [v.get(key)]: only a dict has the method. *)
Definition py_get (v : pyval) (key : string) : M pyval :=
  match v with
  | PyDict d => ret (default PyNone (dict_lookup key d))
  | _ => raise (mk_exn AttributeError "object has no attribute 'get'")
  end.

(** [v[i]] for a literal index [i]. *)
Definition py_getitem (v : pyval) (i : nat) : M pyval :=
  match v with
  | PyTuple l | PyList l =>
      match l !! i with
      | Some x => ret x
      | None => raise (mk_exn IndexError "index out of range")
      end
  | PyStr s =>
      match String.get i s with
      | Some c => ret (PyStr (String c ""))
      | None => raise (mk_exn IndexError "string index out of range")
      end
  | PyDict _ => raise (mk_exn KeyError "key")
  | _ => raise (mk_exn TypeError "object is not subscriptable")
  end.

Fixpoint mapM {A B} (f : A → M B) (l : list A) : M (list B) :=
  match l with
  | [] => ret []
  | a :: l' => do b <- f a; do bs <- mapM f l'; ret (b :: bs)
  end.

(** ** Module level of function_app.py *)

Definition getenv (env : gmap string string) (key : string) : option string :=
  env !! key.
Definition getenv_default (env : gmap string string) (key dflt : string)
    : option string :=
  Some (default dflt (env !! key)).

Definition DB_CONFIG (env : gmap string string) : list (string * option string) :=
  [ ("host", getenv env "DB_HOST");
    ("database", getenv env "DB_NAME");
    ("user", getenv env "DB_USER");
    ("password", getenv env "DB_PASSWORD");
    ("port", getenv_default env "DB_PORT" "5432") ].

Definition init_db_pool (env : gmap string string) : Pool :=
  SimpleConnectionPool 1%nat 10%nat (DB_CONFIG env).

(** The state in which the first request finds the process, over a
    database with rows [t] and sequence at [n]. *)
Definition startup (env : gmap string string) (t : Table) (n : Z)
    (fs : list (option exn)) : World :=
  mk_world (init_db_pool env) t n None fs [] [].

Definition get_db_connection : M Connection :=
  try_except getconn
    [ (Exception, λ e,
        do _ <- logging_error ("Error getting connection from pool: " +:+ exn_msg e);
        raise e) ].

(** ** The database behind the connections *)

(** A cursor holds the rows of its last statement, [None] when that
    statement returns none. *)
Record Cursor : Type := mk_cursor { rows : option (list pyval) }.

Inductive statement : Type :=
  | InsertItem | SelectItem | UpdateItem | DeleteItem | SelectItems.

Definition sql_insert : string :=
  "INSERT INTO items (name, description) VALUES (%s, %s) RETURNING id;".
Definition sql_select : string :=
  "SELECT id, name, description FROM items WHERE id = %s;".
Definition sql_update : string :=
  "UPDATE items SET name = %s, description = %s WHERE id = %s;".
Definition sql_delete : string :=
  "DELETE FROM items WHERE id = %s;".
Definition sql_select_all : string :=
  "SELECT id, name, description FROM items;".

(** The five statements the module sends. *)
Definition parse_sql (sql : string) : option statement :=
  if String.eqb sql sql_insert then Some InsertItem
  else if String.eqb sql sql_select then Some SelectItem
  else if String.eqb sql sql_update then Some UpdateItem
  else if String.eqb sql sql_delete then Some DeleteItem
  else if String.eqb sql sql_select_all then Some SelectItems
  else None.

(** The rows a statement sees: those of its own transaction once it has
    one, the committed ones before. *)
Definition visible (w : World) : Table := default (table w) (txn w).

Definition row_tuple (r : Z * (pyval * pyval)) : pyval :=
  PyTuple [PyInt r.1; r.2.1; r.2.2].

(** The routes of the app. *)
Inductive handler : Type := Create | Read | Update | Delete | GetAll.

Section Storage.

(** Two things are fixed by the schema of [items] and by psycopg2's
    adapters, neither of which is part of the repository:
    - [adapt_col v]: what a [name] or [description] column holds, as
      read back, after [v] was passed for it; an exception when [v]
      cannot be adapted or is refused by the column;
    - [id_in s]: the key the server reads the text [s] as, where it
      is compared with [id]; an exception when it reads none. *)
Context (adapt_col : pyval → exn + pyval) (id_in : string → exn + Z).

(** The parameter compared with [id]; [None] is SQL's NULL, which is
    equal to no key. *)
Definition id_param (v : pyval) : exn + option Z :=
  match v with
  | PyNone => inr None
  | PyInt z => inr (Some z)
  | PyStr s => match id_in s with inl e => inl e | inr k => inr (Some k) end
  | _ => inl (mk_exn ProgrammingError "operator does not exist")
  end.

Definition run_statement (st : statement) (params : list pyval)
    : M (option (list pyval)) :=
  match st, params with
  | InsertItem, [name; description] =>
      do n <- lift (adapt_col name);
      do d <- lift (adapt_col description);
      do _ <- server_call;
      do t <- gets visible;
      do k <- gets seq;
      do _ <- modify (set_seq (k + 1));
      match t !! k with
      | Some _ =>
          raise (mk_exn IntegrityError
                   "duplicate key value violates unique constraint")
      | None =>
          do _ <- modify (set_txn (Some (<[k := (n, d)]> t)));
          ret (Some [PyTuple [PyInt k]])
      end
  | SelectItem, [item_id] =>
      do k <- lift (id_param item_id);
      do _ <- server_call;
      do t <- gets visible;
      do _ <- modify (set_txn (Some t));
      ret (Some match k ≫= λ k, (k,.) <$> t !! k with
                | Some r => [row_tuple r]
                | None => []
                end)
  | UpdateItem, [name; description; item_id] =>
      do n <- lift (adapt_col name);
      do d <- lift (adapt_col description);
      do k <- lift (id_param item_id);
      do _ <- server_call;
      do t <- gets visible;
      do _ <- modify (set_txn (Some match k with
                                    | Some k => alter (λ _, (n, d)) k t
                                    | None => t
                                    end));
      ret None
  | DeleteItem, [item_id] =>
      do k <- lift (id_param item_id);
      do _ <- server_call;
      do t <- gets visible;
      do _ <- modify (set_txn (Some match k with
                                    | Some k => delete k t
                                    | None => t
                                    end));
      ret None
  | SelectItems, [] =>
      do _ <- server_call;
      do t <- gets visible;
      do _ <- modify (set_txn (Some t));
      ret (Some (row_tuple <$> map_to_list t))
  | _, _ =>
      raise (mk_exn ProgrammingError "wrong number of parameters")
  end.

(** [conn.cursor()] *)
Definition conn_cursor (conn : Connection) : M Cursor :=
  ret (mk_cursor None).

(** [cursor.execute(sql, params)]; the cursor that comes back is the
    same Python object, holding the new rows. *)
Definition execute (cursor : Cursor) (sql : string) (params : list pyval)
    : M Cursor :=
  do _ <- modify (add_event (EvExecute sql params));
  match parse_sql sql with
  | Some st => do r <- run_statement st params; ret (mk_cursor r)
  | None => raise (mk_exn ProgrammingError "syntax error")
  end.

(** [cursor.fetchone()], called at most once per statement here. *)
Definition fetchone (cursor : Cursor) : M pyval :=
  match rows cursor with
  | None => raise (mk_exn ProgrammingError "no results to fetch")
  | Some [] => ret PyNone
  | Some (r :: _) => ret r
  end.

(** [cursor.fetchall()] *)
Definition fetchall (cursor : Cursor) : M (list pyval) :=
  match rows cursor with
  | None => raise (mk_exn ProgrammingError "no results to fetch")
  | Some rs => ret rs
  end.

(** [cursor.close()] *)
Definition cursor_close (cursor : Cursor) : M unit := ret tt.

(** [conn.commit()]: what the transaction did becomes the table. *)
Definition commit (conn : Connection) : M unit :=
  do _ <- modify (add_event EvCommit);
  do _ <- server_call;
  do t <- gets visible;
  do _ <- modify (set_table t);
  modify (set_txn None).

(** ** The handlers *)

(** The two [except] clauses every handler ends with. *)
Definition on_database_error (db_err : exn) : M HttpResponse :=
  do _ <- logging_error ("Database error: " +:+ exn_msg db_err);
  ret (Response (Text "Database error occurred.") 500).

Definition on_exception (e : exn) : M HttpResponse :=
  do _ <- logging_error ("Unexpected error: " +:+ exn_msg e);
  ret (Response (Text "An unexpected error occurred.") 500).

Definition except_clauses : list (exn_class * (exn → M HttpResponse)) :=
  [ (DatabaseError, on_database_error); (Exception, on_exception) ].

(** The [try] block of [create_item]. *)
Definition create_item_try (req : HttpRequest) : M HttpResponse :=
  do req_body <- get_json req;
  do name <- py_get req_body "name";
  do description <- py_get req_body "description";
  if negb (truthy name) || negb (truthy description) then
    ret (Response
           (Text "Missing 'name' or 'description' in the request body.") 400)
  else
    do conn <- get_db_connection;
    do cursor <- conn_cursor conn;
    do cursor <- execute cursor sql_insert [name; description];
    do row <- fetchone cursor;
    do item_id <- py_getitem row 0;
    do _ <- commit conn;
    do _ <- cursor_close cursor;
    do _ <- putconn conn;
    ret (Response
           (JsonDumps (PyDict [ ("id", item_id);
                                ("message", PyStr "Item created successfully") ]))
           201).

Definition create_item (req : HttpRequest) : M HttpResponse :=
  try_except (create_item_try req) except_clauses.

(** The [try] block of [read_item]. *)
Definition read_item_try (req : HttpRequest) : M HttpResponse :=
  let item_id := route_params_get req "id" in
  do conn <- get_db_connection;
  do cursor <- conn_cursor conn;
  do cursor <- execute cursor sql_select [of_param item_id];
  do item <- fetchone cursor;
  do _ <- cursor_close cursor;
  do _ <- putconn conn;
  if truthy item then
    do i0 <- py_getitem item 0;
    do i1 <- py_getitem item 1;
    do i2 <- py_getitem item 2;
    ret (Response
           (JsonDumps (PyDict [ ("id", i0); ("name", i1); ("description", i2) ]))
           200)
  else
    ret (Response (Text "Item not found.") 404).

Definition read_item (req : HttpRequest) : M HttpResponse :=
  try_except (read_item_try req) except_clauses.

(** The [try] block of [update_item]. *)
Definition update_item_try (req : HttpRequest) : M HttpResponse :=
  let item_id := route_params_get req "id" in
  do req_body <- get_json req;
  do name <- py_get req_body "name";
  do description <- py_get req_body "description";
  if negb (truthy name) || negb (truthy description) then
    ret (Response
           (Text "Missing 'name' or 'description' in the request body.") 400)
  else
    do conn <- get_db_connection;
    do cursor <- conn_cursor conn;
    do cursor <- execute cursor sql_update [name; description; of_param item_id];
    do _ <- commit conn;
    do _ <- cursor_close cursor;
    do _ <- putconn conn;
    ret (Response
           (Text ("Item " +:+ format_param item_id +:+ " updated successfully."))
           200).

Definition update_item (req : HttpRequest) : M HttpResponse :=
  try_except (update_item_try req) except_clauses.

(** The [try] block of [delete_item]. *)
Definition delete_item_try (req : HttpRequest) : M HttpResponse :=
  let item_id := route_params_get req "id" in
  do conn <- get_db_connection;
  do cursor <- conn_cursor conn;
  do cursor <- execute cursor sql_delete [of_param item_id];
  do _ <- commit conn;
  do _ <- cursor_close cursor;
  do _ <- putconn conn;
  ret (Response
         (Text ("Item " +:+ format_param item_id +:+ " deleted successfully."))
         200).

Definition delete_item (req : HttpRequest) : M HttpResponse :=
  try_except (delete_item_try req) except_clauses.

(** One entry of the list [get_all_items] returns. *)
Definition item_dict (item : pyval) : M pyval :=
  do i0 <- py_getitem item 0;
  do i1 <- py_getitem item 1;
  do i2 <- py_getitem item 2;
  ret (PyDict [ ("id", i0); ("name", i1); ("description", i2) ]).

(** The [try] block of [get_all_items]. *)
Definition get_all_items_try (req : HttpRequest) : M HttpResponse :=
  do conn <- get_db_connection;
  do cursor <- conn_cursor conn;
  do cursor <- execute cursor sql_select_all [];
  do items <- fetchall cursor;
  do _ <- cursor_close cursor;
  do _ <- putconn conn;
  if truthy (PyList items) then
    do result <- mapM item_dict items;
    ret (mk_response (JsonDumps (PyList result)) 200 (Some "application/json"))
  else
    ret (Response (Text "No items found.") 404).

Definition get_all_items (req : HttpRequest) : M HttpResponse :=
  try_except (get_all_items_try req) except_clauses.

Definition try_block (h : handler) : HttpRequest → M HttpResponse :=
  match h with
  | Create => create_item_try
  | Read => read_item_try
  | Update => update_item_try
  | Delete => delete_item_try
  | GetAll => get_all_items_try
  end.

Definition handle (h : handler) : HttpRequest → M HttpResponse :=
  match h with
  | Create => create_item
  | Read => read_item
  | Update => update_item
  | Delete => delete_item
  | GetAll => get_all_items
  end.

End Storage.

(** ** A storage to run the handlers on *)

(** A column of type text that takes strings as they are and nothing
    else. *)
Definition text_column (v : pyval) : exn + pyval :=
  match v with
  | PyStr s => inr (PyStr s)
  | PyDict _ => inl (mk_exn ProgrammingError "can't adapt type 'dict'")
  | _ => inl (mk_exn DataError "not a text")
  end.

Definition digit_value (c : Ascii.ascii) : option Z :=
  let n := Z.of_N (Ascii.N_of_ascii c) in
  if (48 <=? n) && (n <=? 57) then Some (n - 48) else None.

Fixpoint digits_value (acc : Z) (s : string) : option Z :=
  match s with
  | EmptyString => Some acc
  | String c s' =>
      match digit_value c with
      | Some d => digits_value (10 * acc + d) s'
      | None => None
      end
  end.

(** A key column that reads plain decimal digits. *)
Definition decimal_id (s : string) : exn + Z :=
  match s, digits_value 0 s with
  | String _ _, Some k => inr k
  | _, _ => inl (mk_exn DataError "invalid input syntax for type integer")
  end.

(** The JSON object a handler answers a read with. *)
Definition item_json (r : Z * (pyval * pyval)) : pyval :=
  PyDict [ ("id", PyInt r.1); ("name", r.2.1); ("description", r.2.2) ].

(** A body that is a JSON object with the two fields as given. *)
Definition item_request (name description : pyval)
    (params : gmap string string) : HttpRequest :=
  mk_request (Some (PyDict [ ("name", name); ("description", description) ]))
    params.

(** A process just started over an empty table, and over a table that
    holds the row 1. *)
Definition fresh_world : World := startup ∅ ∅ 1 [].
Definition one_row_world : World :=
  startup ∅ {[ 1 := (PyStr "A", PyStr "B") ]} 2 [].

(** A request for [item/{id}] without a body. *)
Definition id_request (key : string) : HttpRequest :=
  mk_request None {[ "id" := key ]}.

(** A request whose [name] cannot be adapted: the statement fails once
    the connection is out. *)
Definition leaking_request : HttpRequest :=
  item_request (PyDict [ ("a", PyInt 1) ]) (PyStr "B") ∅.

(** ** Requests that go through *)

(** No call to the server is going to fail and the pool can hand out a
    connection. *)
Definition calm (w : World) : Prop :=
  faults w = [] ∧ (used (db_pool w) < maxconn (db_pool w))%nat.

(** The world after [getconn] handed out a connection. *)
Definition checked_out (w : World) : World :=
  add_event EvGetconn
    (set_txn None
       (set_pool (set_idle_used (Nat.pred (idle (db_pool w)))
                    (S (used (db_pool w))) (db_pool w)) w)).

(** ** Specifications of computations *)

(** From a world in [P], [c] returns into [Q] or raises into [E]. *)
Definition triple {A} (P : World → Prop) (c : M A)
    (Q : A → World → Prop) (E : World → Prop) : Prop :=
  ∀ w, P w →
    match c w with
    | (Returned a, w') => Q a w'
    | (Raised _, w') => E w'
    end.

(** [c] never leaves [I], however it ends. *)
Definition keeps (I : World → Prop) {A} (c : M A) : Prop :=
  triple I c (λ _, I) I.

(** [c] does not change the world. *)
Definition pure {A} (c : M A) : Prop := ∀ w, (c w).2 = w.

(** ** The pool as seen by one request *)

Definition pool_ok (w : World) : Prop :=
  (idle (db_pool w) + used (db_pool w) ≤ maxconn (db_pool w))%nat.

Definition same_config (p q : Pool) : Prop :=
  minconn p = minconn q ∧ maxconn p = maxconn q ∧ kwargs p = kwargs q.

(** Where a request that started in [w0] stands with its connection. *)
Inductive phase : Type := NotYet | Held | Done.

Definition in_phase (w0 : World) (ph : phase) (w : World) : Prop :=
  same_config (db_pool w) (db_pool w0) ∧ pool_ok w ∧
  ∃ evs : list Event, events w = (evs ++ events w0)%list ∧
    match ph with
    | NotYet =>
        (used (db_pool w) = used (db_pool w0)
         ∧ (EvGetconn ∉ evs) ∧ (EvPutconn ∉ evs))
    | Held =>
        (used (db_pool w) = S (used (db_pool w0))
         ∧ (EvGetconn ∈ evs) ∧ (EvPutconn ∉ evs))
    | Done =>
        (used (db_pool w) = used (db_pool w0) ∧ EvPutconn ∈ evs)
    end.

Definition any_phase (w0 w : World) : Prop := ∃ ph, in_phase w0 ph w.

(** A [try] block returns without having taken a connection or after
    giving it back; when it raises it may also still hold it. *)
Definition settled (w0 w : World) : Prop :=
  in_phase w0 NotYet w ∨ in_phase w0 Done w.

(** The response and the log entry the [except] clauses make of an
    exception. *)
Definition error_response (e : exn) : HttpResponse :=
  Response (Text (if isinstance e DatabaseError
                  then "Database error occurred."
                  else "An unexpected error occurred.")) 500.

Definition error_log (e : exn) : string :=
  (if isinstance e DatabaseError then "Database error: " else "Unexpected error: ")
  +:+ exn_msg e.

(** The database is as it was: same rows, same sequence. *)
Definition db_same (t : Table) (n : Z) (w : World) : Prop :=
  table w = t ∧ seq w = n.

(** The sequence is ahead of every key in use, in the table and in the
    transaction left open on the connection last handed out. *)
Definition ahead (t : Table) (n : Z) : Prop := ∀ k, is_Some (t !! k) → k < n.

Definition seq_ahead (w : World) : Prop :=
  ahead (table w) (seq w) ∧ ∀ t, txn w = Some t → ahead t (seq w).

(** A field of a JSON object that is not there or is the empty string. *)
Definition missing_or_empty (key : string) (d : list (string * pyval)) : Prop :=
  dict_lookup key d = None ∨ dict_lookup key d = Some (PyStr "").

(** The value a handler finds under [key] in the body, [None] when the
    body is not a JSON object or has no such key. *)
Definition field (key : string) (req : HttpRequest) : pyval :=
  match json_body req with
  | Some (PyDict d) => default PyNone (dict_lookup key d)
  | _ => PyNone
  end.

(** The calls a handler makes when nothing fails, latest first. *)
Definition calls_of (h : handler) (req : HttpRequest) : list Event :=
  let item_id := of_param (route_params_get req "id") in
  match h with
  | Create =>
      [ EvPutconn; EvCommit;
        EvExecute sql_insert [field "name" req; field "description" req];
        EvGetconn ]
  | Read => [ EvPutconn; EvExecute sql_select [item_id]; EvGetconn ]
  | Update =>
      [ EvPutconn; EvCommit;
        EvExecute sql_update
          [field "name" req; field "description" req; item_id];
        EvGetconn ]
  | Delete =>
      [ EvPutconn; EvCommit; EvExecute sql_delete [item_id]; EvGetconn ]
  | GetAll => [ EvPutconn; EvExecute sql_select_all []; EvGetconn ]
  end.

(** Requests served one after the other. *)
Definition serve (adapt_col : pyval → exn + pyval) (id_in : string → exn + Z)
    (rs : list (handler * HttpRequest)) (w : World) : World :=
  foldl (λ w r, (handle adapt_col id_in r.1 r.2 w).2) w rs.

(** The requests that get as far as asking for a connection: all of
    them for the handlers without a body, those that pass the presence
    check for the others. *)
Definition wants_connection (h : handler) (req : HttpRequest) : Prop :=
  match h with
  | Create | Update =>
      (∃ d, json_body req = Some (PyDict d))
      ∧ truthy (field "name" req) = true
      ∧ truthy (field "description" req) = true
  | Read | Delete | GetAll => True
  end.

(** A server that lets the first call through and fails the second. *)
Definition second_call_fails : World :=
  startup ∅ ∅ 1
    [ None; Some (mk_exn OperationalError "server closed the connection") ].

(** The process after ten requests that each kept their connection. *)
Definition used_up_world : World :=
  serve text_column decimal_id (replicate 10 (Create, leaking_request))
    fresh_world.

(** * Properties *)

Section Runs.

Lemma bind_returned {A B} (c : M A) (k : A → M B) w a w' :
  c w = (Returned a, w') → bind c k w = k a w'.
Proof. intros H. unfold bind. by rewrite H. Qed.

Lemma bind_raised {A B} (c : M A) (k : A → M B) w e w' :
  c w = (Raised e, w') → bind c k w = (Raised e, w').
Proof. intros H. unfold bind. by rewrite H. Qed.

Lemma try_except_returned {A} (c : M A) cls w a w' :
  c w = (Returned a, w') → try_except c cls w = (Returned a, w').
Proof. intros H. unfold try_except. by rewrite H. Qed.

Lemma truthy_str s : s ≠ "" → truthy (PyStr s) = true.
Proof. intros H. unfold truthy. by destruct (String.eqb_spec s ""). Qed.

Lemma get_db_connection_calm w :
  calm w → get_db_connection w = (Returned connection, checked_out w).
Proof.
  intros [Hf Hu].
  unfold get_db_connection, try_except, getconn, checked_out, bind, gets,
    modify, server_call, ret.
  destruct (idle (db_pool w)) as [|i]; simpl; [|done].
  destruct (Nat.eqb_spec (used (db_pool w)) (maxconn (db_pool w))); [lia|].
  by rewrite Hf.
Qed.

Lemma visible_add_event ev w : visible (add_event ev w) = visible w.
Proof. done. Qed.

Lemma visible_checked_out w : visible (checked_out w) = table w.
Proof. done. Qed.

Lemma putconn_out conn w u :
  used (db_pool w) = S u →
  putconn conn w
  = (Returned tt,
     add_event EvPutconn
       (set_pool (set_idle_used
                    (if Nat.ltb (idle (db_pool w)) (minconn (db_pool w))
                     then S (idle (db_pool w)) else idle (db_pool w))
                    u (db_pool w))
          (set_txn None w))).
Proof. intros Hu. unfold putconn, bind, gets, modify. by rewrite Hu. Qed.

Lemma get_json_some req v w :
  json_body req = Some v → get_json req w = (Returned v, w).
Proof. intros H. unfold get_json. by rewrite H. Qed.

Lemma py_get_some d key v w :
  dict_lookup key d = Some v → py_get (PyDict d) key w = (Returned v, w).
Proof. intros H. unfold py_get. by rewrite H. Qed.

Context (adapt_col : pyval → exn + pyval) (id_in : string → exn + Z).

Lemma execute_insert cursor name description n d w :
  faults w = [] →
  adapt_col name = inr n → adapt_col description = inr d →
  visible w !! seq w = None →
  execute adapt_col id_in cursor sql_insert [name; description] w
  = (Returned (mk_cursor (Some [PyTuple [PyInt (seq w)]])),
     set_txn (Some (<[seq w := (n, d)]> (visible w)))
       (set_seq (seq w + 1)
          (add_event (EvExecute sql_insert [name; description]) w))).
Proof.
  intros Hf Hn Hd Hk.
  unfold execute, bind, modify. change (parse_sql sql_insert) with (Some InsertItem).
  unfold run_statement, bind, lift, gets, modify, server_call, ret.
  rewrite Hn, Hd. simpl. rewrite Hf. simpl.
  rewrite !visible_add_event, Hk. done.
Qed.

Lemma execute_select cursor key k w :
  faults w = [] → id_in key = inr k →
  execute adapt_col id_in cursor sql_select [PyStr key] w
  = (Returned (mk_cursor (Some match visible w !! k with
                               | Some r => [row_tuple (k, r)]
                               | None => []
                               end)),
     set_txn (Some (visible w))
       (add_event (EvExecute sql_select [PyStr key]) w)).
Proof.
  intros Hf Hk.
  unfold execute, bind, modify. change (parse_sql sql_select) with (Some SelectItem).
  unfold run_statement, id_param, bind, lift, gets, modify, server_call, ret.
  rewrite Hk. simpl. rewrite Hf. simpl. rewrite !visible_add_event.
  by destruct (visible w !! k).
Qed.

Lemma execute_update cursor name description key n d k w :
  faults w = [] →
  adapt_col name = inr n → adapt_col description = inr d →
  id_in key = inr k →
  execute adapt_col id_in cursor sql_update [name; description; PyStr key] w
  = (Returned (mk_cursor None),
     set_txn (Some (alter (λ _, (n, d)) k (visible w)))
       (add_event (EvExecute sql_update [name; description; PyStr key]) w)).
Proof.
  intros Hf Hn Hd Hk.
  unfold execute, bind, modify. change (parse_sql sql_update) with (Some UpdateItem).
  unfold run_statement, id_param, bind, lift, gets, modify, server_call, ret.
  rewrite Hn, Hd, Hk. simpl. rewrite Hf. simpl. by rewrite !visible_add_event.
Qed.

Lemma execute_delete cursor key k w :
  faults w = [] → id_in key = inr k →
  execute adapt_col id_in cursor sql_delete [PyStr key] w
  = (Returned (mk_cursor None),
     set_txn (Some (delete k (visible w)))
       (add_event (EvExecute sql_delete [PyStr key]) w)).
Proof.
  intros Hf Hk.
  unfold execute, bind, modify. change (parse_sql sql_delete) with (Some DeleteItem).
  unfold run_statement, id_param, bind, lift, gets, modify, server_call, ret.
  rewrite Hk. simpl. rewrite Hf. simpl. by rewrite !visible_add_event.
Qed.

Lemma execute_select_all cursor w :
  faults w = [] →
  execute adapt_col id_in cursor sql_select_all [] w
  = (Returned (mk_cursor (Some (row_tuple <$> map_to_list (visible w)))),
     set_txn (Some (visible w))
       (add_event (EvExecute sql_select_all []) w)).
Proof.
  intros Hf.
  unfold execute, bind, modify.
  change (parse_sql sql_select_all) with (Some SelectItems).
  unfold run_statement, bind, gets, modify, server_call, ret.
  simpl. rewrite Hf. simpl. by rewrite !visible_add_event.
Qed.

Lemma commit_calm conn w :
  faults w = [] →
  commit conn w
  = (Returned tt, set_txn None (set_table (visible w) (add_event EvCommit w))).
Proof.
  intros Hf. unfold commit, bind, gets, modify, server_call.
  simpl. rewrite Hf. done.
Qed.

(** Running a [do] block one call at a time. *)
Ltac run_with lem :=
  erewrite bind_returned; [| by (eapply lem; simpl; eauto)]; cbv beta.
Ltac run := erewrite bind_returned by reflexivity; cbv beta.

Lemma create_item_calm req w d name description :
  json_body req = Some (PyDict d) →
  dict_lookup "name" d = Some (PyStr name) → name ≠ "" →
  dict_lookup "description" d = Some (PyStr description) → description ≠ "" →
  adapt_col (PyStr name) = inr (PyStr name) →
  adapt_col (PyStr description) = inr (PyStr description) →
  calm w → table w !! seq w = None →
  ∃ w',
    create_item adapt_col id_in req w
    = (Returned
         (Response
            (JsonDumps (PyDict [ ("id", PyInt (seq w));
                                 ("message", PyStr "Item created successfully") ]))
            201), w')
    ∧ table w' = <[seq w := (PyStr name, PyStr description)]> (table w)
    ∧ seq w' = seq w + 1
    ∧ calm w'.
Proof.
  intros Hb Hn Hne Hd Hde Han Had Hcalm Hfresh.
  pose proof Hcalm as [Hf Hu].
  eexists. split.
  - unfold create_item. apply try_except_returned. unfold create_item_try.
    run_with get_json_some.
    run_with py_get_some. run_with py_get_some.
    rewrite !truthy_str by done. cbn [negb orb].
    run_with get_db_connection_calm.
    run. run_with execute_insert. run. run.
    run_with commit_calm. run. run_with putconn_out.
    reflexivity.
  - simpl. rewrite visible_checked_out. tauto.
Qed.

Lemma read_item_calm req w key k :
  route_params req !! "id" = Some key → id_in key = inr k → calm w →
  ∃ w',
    read_item adapt_col id_in req w
    = (Returned match table w !! k with
                | Some r => Response (JsonDumps (item_json (k, r))) 200
                | None => Response (Text "Item not found.") 404
                end, w')
    ∧ table w' = table w ∧ seq w' = seq w ∧ calm w'.
Proof.
  intros Hr Hk Hcalm. pose proof Hcalm as [Hf Hu].
  eexists. split.
  - unfold read_item. apply try_except_returned.
    unfold read_item_try, route_params_get. rewrite Hr. cbv zeta.
    run_with get_db_connection_calm. run.
    run_with execute_select. rewrite ?visible_add_event, ?visible_checked_out.
    destruct (table w !! k) as [[n d]|].
    + run. run. run_with putconn_out. reflexivity.
    + run. run. run_with putconn_out. reflexivity.
  - simpl. tauto.
Qed.

Lemma update_item_calm req w d name description key k :
  json_body req = Some (PyDict d) →
  dict_lookup "name" d = Some (PyStr name) → name ≠ "" →
  dict_lookup "description" d = Some (PyStr description) → description ≠ "" →
  adapt_col (PyStr name) = inr (PyStr name) →
  adapt_col (PyStr description) = inr (PyStr description) →
  route_params req !! "id" = Some key → id_in key = inr k → calm w →
  ∃ w',
    update_item adapt_col id_in req w
    = (Returned
         (Response (Text ("Item " +:+ key +:+ " updated successfully.")) 200),
       w')
    ∧ table w' = alter (λ _, (PyStr name, PyStr description)) k (table w)
    ∧ seq w' = seq w ∧ calm w'.
Proof.
  intros Hb Hn Hne Hd Hde Han Had Hr Hk Hcalm. pose proof Hcalm as [Hf Hu].
  eexists. split.
  - unfold update_item. apply try_except_returned.
    unfold update_item_try, route_params_get. rewrite Hr. cbv zeta.
    run_with get_json_some.
    run_with py_get_some. run_with py_get_some.
    rewrite !truthy_str by done. cbn [negb orb].
    run_with get_db_connection_calm. run.
    run_with execute_update.
    run_with commit_calm. run. run_with putconn_out.
    reflexivity.
  - simpl. tauto.
Qed.

Lemma delete_item_calm req w key k :
  route_params req !! "id" = Some key → id_in key = inr k → calm w →
  ∃ w',
    delete_item adapt_col id_in req w
    = (Returned
         (Response (Text ("Item " +:+ key +:+ " deleted successfully.")) 200),
       w')
    ∧ table w' = delete k (table w) ∧ seq w' = seq w ∧ calm w'.
Proof.
  intros Hr Hk Hcalm. pose proof Hcalm as [Hf Hu].
  eexists. split.
  - unfold delete_item. apply try_except_returned.
    unfold delete_item_try, route_params_get. rewrite Hr. cbv zeta.
    run_with get_db_connection_calm. run.
    run_with execute_delete.
    run_with commit_calm. run. run_with putconn_out.
    reflexivity.
  - simpl. tauto.
Qed.

Lemma mapM_item_dict (l : list (Z * (pyval * pyval))) w :
  mapM item_dict (row_tuple <$> l) w = (Returned (item_json <$> l), w).
Proof.
  induction l as [|r l IH]; [done|].
  simpl. erewrite bind_returned by reflexivity.
  erewrite bind_returned by apply IH. done.
Qed.

Lemma get_all_items_calm req w :
  calm w →
  ∃ w',
    get_all_items adapt_col id_in req w
    = (Returned
         (if decide (table w = ∅)
          then Response (Text "No items found.") 404
          else mk_response
                 (JsonDumps (PyList (item_json <$> map_to_list (table w))))
                 200 (Some "application/json")),
       w')
    ∧ table w' = table w ∧ seq w' = seq w ∧ calm w'.
Proof.
  intros Hcalm. pose proof Hcalm as [Hf Hu].
  eexists. split.
  - unfold get_all_items. apply try_except_returned.
    unfold get_all_items_try.
    run_with get_db_connection_calm. run.
    run_with execute_select_all. rewrite ?visible_add_event, ?visible_checked_out.
    run. run. run_with putconn_out.
    unfold truthy. rewrite length_fmap.
    destruct (decide (table w = ∅)) as [He|Hne].
    + rewrite He, map_to_list_empty. reflexivity.
    + destruct (map_to_list (table w)) as [|r l] eqn:Hl.
      { by apply map_to_list_empty_iff in Hl. }
      cbn [length Nat.eqb negb].
      erewrite bind_returned by apply mapM_item_dict. reflexivity.
  - simpl. tauto.
Qed.

End Runs.

Lemma isinstance_Exception e : isinstance e Exception = true.
Proof. by destruct e as [[] msg]. Qed.

(** Whatever [body] does, the two [except] clauses turn it into a
    response. *)
Lemma except_clauses_catch (body : M HttpResponse) w :
  try_except body except_clauses w
  = match body w with
    | (Returned r, w') => (Returned r, w')
    | (Raised e, w') => (Returned (error_response e), add_log (error_log e) w')
    end.
Proof.
  unfold try_except. destruct (body w) as [[r|e] w']; [done|].
  unfold except_clauses, error_response, error_log. simpl find.
  destruct (isinstance e DatabaseError); [done|].
  by rewrite isinstance_Exception.
Qed.

Section Triples.

Context {A B : Type}.
Implicit Types (P E : World → Prop) (Q : A → World → Prop).

Lemma triple_ret P Q E (a : A) : (∀ w, P w → Q a w) → triple P (ret a) Q E.
Proof. intros H w Hw. by apply H. Qed.

Lemma triple_raise P Q E e : (∀ w, P w → E w) → triple P (@raise A e) Q E.
Proof. intros H w Hw. by apply H. Qed.

Lemma triple_bind P Q (R : B → World → Prop) E (c : M A) (k : A → M B) :
  triple P c Q E → (∀ a, triple (Q a) (k a) R E) → triple P (bind c k) R E.
Proof.
  intros Hc Hk w Hw. unfold bind. specialize (Hc w Hw).
  destruct (c w) as [[a|e] w']; [by apply Hk | done].
Qed.

Lemma triple_weaken P P' Q Q' E E' (c : M A) :
  triple P' c Q' E' →
  (∀ w, P w → P' w) → (∀ a w, Q' a w → Q a w) → (∀ w, E' w → E w) →
  triple P c Q E.
Proof.
  intros Hc HP HQ HE w Hw. specialize (Hc w (HP w Hw)).
  destruct (c w) as [[a|e] w']; auto.
Qed.

Lemma triple_pure P E (c : M A) :
  pure c → (∀ w, P w → E w) → triple P c (λ _, P) E.
Proof.
  intros Hc HE w Hw. specialize (Hc w).
  destruct (c w) as [[a|e] w']; simpl in Hc; subst; auto.
Qed.

Lemma keeps_ret I (a : A) : keeps I (ret a).
Proof. by apply triple_ret. Qed.

Lemma keeps_raise I e : keeps I (@raise A e).
Proof. by apply triple_raise. Qed.

Lemma keeps_bind I (c : M A) (k : A → M B) :
  keeps I c → (∀ a, keeps I (k a)) → keeps I (bind c k).
Proof. intros Hc Hk. by eapply triple_bind. Qed.

Lemma keeps_gets I (f : World → A) : keeps I (gets f).
Proof. by intros w Hw. Qed.

Lemma keeps_lift I (r : exn + A) : keeps I (lift r).
Proof. by destruct r; intros w Hw. Qed.

Lemma pure_ret (a : A) : pure (ret a).
Proof. done. Qed.

Lemma pure_raise e : pure (@raise A e).
Proof. done. Qed.

Lemma pure_bind (c : M A) (k : A → M B) :
  pure c → (∀ a, pure (k a)) → pure (bind c k).
Proof.
  intros Hc Hk w. unfold bind. specialize (Hc w).
  destruct (c w) as [[a|e] w']; simpl in *; subst; [apply Hk | done].
Qed.

End Triples.

Lemma keeps_modify I (f : World → World) :
  (∀ w, I w → I (f w)) → keeps I (modify f).
Proof. intros H w Hw. by apply H. Qed.

Lemma keeps_server_call I :
  (∀ w fs, I w → I (set_faults fs w)) → keeps I server_call.
Proof.
  intros H w Hw. unfold server_call.
  destruct (faults w) as [|[e|] fs]; auto.
Qed.

Lemma pure_get_json req : pure (get_json req).
Proof. intros w. unfold get_json. by destruct (json_body req). Qed.

Lemma pure_py_get v key : pure (py_get v key).
Proof. intros w. by destruct v. Qed.

Lemma pure_py_getitem v i : pure (py_getitem v i).
Proof. intros w. unfold py_getitem. by repeat case_match. Qed.

Lemma pure_mapM {A B} (f : A → M B) l : (∀ a, pure (f a)) → pure (mapM f l).
Proof.
  intros Hf. induction l as [|a l IH]; [done|].
  simpl. apply pure_bind; [done|]. intros b.
  apply pure_bind; [done|]. intros bs. apply pure_ret.
Qed.

Lemma pure_fetchone cursor : pure (fetchone cursor).
Proof. intros w. unfold fetchone. by repeat case_match. Qed.

Lemma pure_fetchall cursor : pure (fetchall cursor).
Proof. intros w. unfold fetchall. by case_match. Qed.

Lemma pure_item_dict item : pure (item_dict item).
Proof.
  unfold item_dict.
  repeat (apply pure_bind; [apply pure_py_getitem|intros ?]). apply pure_ret.
Qed.

Ltac solve_pure :=
  first [ apply pure_get_json | apply pure_py_get | apply pure_py_getitem
        | apply pure_fetchone | apply pure_fetchall
        | apply pure_mapM; apply pure_item_dict
        | apply pure_ret ].

Ltac keeps_step :=
  lazymatch goal with
  | |- keeps _ (ret _) => apply keeps_ret
  | |- keeps _ (raise _) => apply keeps_raise
  | |- keeps _ (bind _ _) => apply keeps_bind; [|intros ?]
  | |- keeps _ (gets _) => apply keeps_gets
  | |- keeps _ (lift _) => apply keeps_lift
  | |- keeps _ (modify _) => apply keeps_modify
  | |- keeps _ server_call => apply keeps_server_call
  | |- keeps _ (match ?x with _ => _ end) => destruct x
  end.

Section Protocol.

Context (adapt_col : pyval → exn + pyval) (id_in : string → exn + Z).
Context (w0 : World).

Lemma in_phase_start : pool_ok w0 → in_phase w0 NotYet w0.
Proof.
  intros Hok. split; [done|]. split; [done|].
  exists []. split; [done|]. split; [done|]. split; apply not_elem_of_nil.
Qed.

(** A step that leaves the pool alone and records nothing. *)
Lemma in_phase_same ph w w' :
  in_phase w0 ph w → db_pool w' = db_pool w → events w' = events w →
  in_phase w0 ph w'.
Proof.
  intros (Hc & Hok & evs & Hev & Hph) Hp He.
  unfold in_phase, pool_ok. rewrite Hp, He. eauto.
Qed.

(** A step that leaves the pool alone and records a statement or a
    commit. *)
Lemma in_phase_sql ph w w' ev :
  in_phase w0 ph w → db_pool w' = db_pool w → events w' = ev :: events w →
  EvGetconn ≠ ev → EvPutconn ≠ ev →
  in_phase w0 ph w'.
Proof.
  intros (Hc & Hok & evs & Hev & Hph) Hp He Hg Hr.
  unfold in_phase, pool_ok. rewrite Hp, He, Hev.
  split; [done|]. split; [done|].
  exists (ev :: evs). split; [done|].
  destruct ph; rewrite ?elem_of_cons, ?not_elem_of_cons; tauto.
Qed.

Lemma run_statement_phase ph st params :
  keeps (in_phase w0 ph) (run_statement adapt_col id_in st params).
Proof.
  unfold run_statement.
  repeat (keeps_step;
          try (intros; eapply in_phase_same; [eassumption|done|done])).
Qed.

Lemma execute_phase ph cursor sql params :
  keeps (in_phase w0 ph) (execute adapt_col id_in cursor sql params).
Proof.
  unfold execute. apply keeps_bind.
  - apply keeps_modify. intros w Hw.
    by eapply in_phase_sql; [eassumption|done|done|done|done].
  - intros _. destruct (parse_sql sql); [|apply keeps_raise].
    apply keeps_bind; [apply run_statement_phase|]. intros; apply keeps_ret.
Qed.

Lemma commit_phase ph conn : keeps (in_phase w0 ph) (commit conn).
Proof.
  unfold commit. apply keeps_bind.
  - apply keeps_modify. intros w Hw.
    by eapply in_phase_sql; [eassumption|done|done|done|done].
  - intros _.
    repeat (keeps_step;
            try (intros; eapply in_phase_same; [eassumption|done|done])).
Qed.

Lemma getconn_phase :
  triple (in_phase w0 NotYet) getconn
    (λ _, in_phase w0 Held) (in_phase w0 NotYet).
Proof.
  intros w Hw.
  assert (∀ w1 i, db_pool w1 = db_pool w → events w1 = events w →
            (i + S (used (db_pool w)) ≤ maxconn (db_pool w))%nat →
            in_phase w0 Held
              (add_event EvGetconn
                 (set_txn None
                    (set_pool (set_idle_used i (S (used (db_pool w)))
                                 (db_pool w1)) w1)))) as Hout.
  { intros w1 i Hp He Hi. destruct Hw as (Hc & Hok & evs & Hev & Hu & Hg & Hr).
    split; [by rewrite Hp|]. split; [by unfold pool_ok; simpl; rewrite Hp|].
    exists (EvGetconn :: evs). simpl. rewrite He, Hev, Hu.
    split; [done|]. split; [done|].
    rewrite elem_of_cons, not_elem_of_cons. auto. }
  assert (pool_ok w) as Hok by apply Hw. unfold pool_ok in Hok.
  unfold getconn, bind, gets, modify, server_call, ret, raise.
  destruct (idle (db_pool w)) as [|i] eqn:Hi; simpl.
  - destruct (Nat.eqb_spec (used (db_pool w)) (maxconn (db_pool w)));
      [done|].
    destruct (faults w) as [|[e|] fs]; simpl.
    + apply Hout; [done|done|lia].
    + by eapply in_phase_same.
    + apply (Hout (set_faults fs w)); [done|done|lia].
  - apply Hout; [done|done|lia].
Qed.

Lemma get_db_connection_phase :
  triple (in_phase w0 NotYet) get_db_connection
    (λ _, in_phase w0 Held) (in_phase w0 NotYet).
Proof.
  intros w Hw. pose proof (getconn_phase w Hw) as H.
  unfold get_db_connection, try_except.
  destruct (getconn w) as [[c|e] w']; [done|].
  simpl. rewrite isinstance_Exception. simpl.
  by eapply in_phase_same.
Qed.

Lemma putconn_phase conn :
  triple (in_phase w0 Held) (putconn conn)
    (λ _, in_phase w0 Done) (in_phase w0 Held).
Proof.
  intros w (Hc & Hok & evs & Hev & Hu & Hg & Hr).
  unfold putconn, bind, gets, modify. rewrite Hu. simpl.
  split; [done|]. unfold pool_ok in *. simpl. rewrite Hu in Hok.
  split; [case_match; lia|].
  exists (EvPutconn :: evs). rewrite Hev.
  split; [done|]. split; [done|]. apply elem_of_cons; auto.
Qed.

Lemma any_phase_intro ph w : in_phase w0 ph w → any_phase w0 w.
Proof. by exists ph. Qed.

Lemma phase_call {A} ph ph' ph'' (c : M A) :
  triple (in_phase w0 ph) c (λ _, in_phase w0 ph') (in_phase w0 ph'') →
  triple (in_phase w0 ph) c (λ _, in_phase w0 ph') (any_phase w0).
Proof.
  intros H. eapply triple_weaken; [exact H|auto..].
  intros w. apply any_phase_intro.
Qed.

Lemma phase_pure {A} ph (c : M A) :
  pure c →
  triple (in_phase w0 ph) c (λ _, in_phase w0 ph) (any_phase w0).
Proof. intros H. apply triple_pure; [done|]. intros w. apply any_phase_intro. Qed.

Ltac phase_step :=
  lazymatch goal with
  | |- triple _ (bind get_db_connection _) _ _ =>
      eapply triple_bind;
      [apply (phase_call _ _ _ _ get_db_connection_phase) | intros ?]
  | |- triple _ (bind (execute _ _ _ _ _) _) _ _ =>
      eapply triple_bind;
      [apply (phase_call _ _ _ _ (execute_phase _ _ _ _)) | intros ?]
  | |- triple _ (bind (commit _) _) _ _ =>
      eapply triple_bind;
      [apply (phase_call _ _ _ _ (commit_phase _ _)) | intros ?]
  | |- triple _ (bind (putconn _) _) _ _ =>
      eapply triple_bind;
      [apply (phase_call _ _ _ _ (putconn_phase _)) | intros ?]
  | |- triple _ (bind _ _) _ _ =>
      eapply triple_bind; [apply phase_pure; solve_pure | intros ?]
  | |- triple _ (ret _) _ _ =>
      apply triple_ret; intros ? ?; first [by left | by right]
  | |- triple _ (if ?b then _ else _) _ _ => destruct b
  end.

Lemma try_block_phase h req :
  triple (in_phase w0 NotYet) (try_block adapt_col id_in h req)
    (λ _, settled w0) (any_phase w0).
Proof.
  destruct h; simpl;
    unfold create_item_try, read_item_try, update_item_try, delete_item_try,
      get_all_items_try, conn_cursor, cursor_close;
    cbv zeta; repeat phase_step.
Qed.

Lemma pool_ok_startup env t n fs : pool_ok (startup env t n fs).
Proof. unfold pool_ok. simpl. lia. Qed.

(** The pool stays within its bounds over a request. *)
Lemma pool_ok_handle h req :
  pool_ok w0 → pool_ok (handle adapt_col id_in h req w0).2.
Proof.
  intros Hok. pose proof (try_block_phase h req w0 (in_phase_start Hok)) as H.
  replace (handle adapt_col id_in h req)
    with (try_except (try_block adapt_col id_in h req) except_clauses)
    by (by destruct h).
  rewrite except_clauses_catch.
  destruct (try_block adapt_col id_in h req w0) as [[r|e] w1]; simpl.
  - by destruct H as [(_ & ? & _)|(_ & ? & _)].
  - by destruct H as (ph & _ & ? & _).
Qed.

End Protocol.

(** ** What every run of a handler keeps *)

Lemma keeps_pure {A} I (c : M A) : pure c → keeps I c.
Proof. intros H. by apply triple_pure. Qed.

Lemma keeps_try_except {A} I (body : M A) clauses :
  keeps I body → (∀ cl e, cl ∈ clauses → keeps I (cl.2 e)) →
  keeps I (try_except body clauses).
Proof.
  intros Hb Hc w Hw. unfold try_except. specialize (Hb w Hw).
  destruct (body w) as [[a|e] w']; [done|].
  destruct (find _ clauses) as [cl|] eqn:Hf; [|done].
  apply find_some in Hf as [Hin _]. apply list_elem_of_In in Hin.
  by apply (Hc cl e Hin w').
Qed.

Lemma triple_any {A} (P : World → Prop) (c : M A) :
  triple P c (λ _ _, True) (λ _, True).
Proof. intros w _. by destruct (c w) as [[a|e] w']. Qed.

Section Kept.

Context (adapt_col : pyval → exn + pyval) (id_in : string → exn + Z).

(** A [try] block that returns does so with a status other than 500. *)
Lemma try_block_status h req :
  triple (λ _, True) (try_block adapt_col id_in h req)
    (λ r _, status_code r ≠ 500) (λ _, True).
Proof.
  destruct h; simpl;
    unfold create_item_try, read_item_try, update_item_try, delete_item_try,
      get_all_items_try;
    cbv zeta;
    repeat lazymatch goal with
      | |- triple _ (bind _ _) _ _ =>
          eapply triple_bind; [apply triple_any | intros ?]
      | |- triple _ (if ?b then _ else _) _ _ => destruct b
      | |- triple _ (ret _) _ _ => by apply triple_ret
      end.
Qed.

(** The pool keeps the configuration it was created with. *)
Section Config.

Context (p : Pool).
Let I (w : World) : Prop := same_config (db_pool w) p.

Lemma config_get_db_connection : keeps I get_db_connection.
Proof.
  apply keeps_try_except.
  - intros w Hw.
    unfold getconn, bind, gets, modify, server_call, ret, raise.
    destruct (idle (db_pool w)); simpl; [|done].
    destruct (Nat.eqb _ _); [done|].
    by destruct (faults w) as [|[e|] fs].
  - intros cl e Hcl. apply list_elem_of_singleton in Hcl as ->. simpl.
    apply keeps_bind; [by apply keeps_modify|]. intros; apply keeps_raise.
Qed.

Lemma config_putconn conn : keeps I (putconn conn).
Proof.
  intros w Hw. unfold putconn, bind, gets, modify, raise.
  by destruct (used (db_pool w)).
Qed.

Lemma config_execute cursor sql params :
  keeps I (execute adapt_col id_in cursor sql params).
Proof.
  unfold execute, run_statement. repeat (keeps_step; try done).
Qed.

Lemma config_commit conn : keeps I (commit conn).
Proof. unfold commit. repeat (keeps_step; try done). Qed.

Lemma config_try_block h req : keeps I (try_block adapt_col id_in h req).
Proof.
  destruct h; simpl;
    unfold create_item_try, read_item_try, update_item_try,
      delete_item_try, get_all_items_try, conn_cursor, cursor_close;
    cbv zeta;
    repeat lazymatch goal with
      | |- keeps _ (bind _ _) =>
          apply keeps_bind;
          [first [ apply config_get_db_connection | apply config_putconn
                 | apply config_execute | apply config_commit
                 | apply keeps_pure; solve_pure ]
          | intros ?]
      | |- keeps _ (if ?b then _ else _) => destruct b
      | |- keeps _ (ret _) => apply keeps_ret
      end.
Qed.

End Config.

Lemma keeps_except_clauses I (body : M HttpResponse) :
  (∀ msg w, I w → I (add_log msg w)) →
  keeps I body → keeps I (try_except body except_clauses).
Proof.
  intros Hlog Hb w Hw. rewrite except_clauses_catch. specialize (Hb w Hw).
  destruct (body w) as [[r|e] w']; [done|]. by apply Hlog.
Qed.

Lemma config_handle p h req :
  keeps (λ w, same_config (db_pool w) p) (handle adapt_col id_in h req).
Proof.
  destruct h; simpl; (apply keeps_except_clauses; [done|]).
  - exact (config_try_block p Create req).
  - exact (config_try_block p Read req).
  - exact (config_try_block p Update req).
  - exact (config_try_block p Delete req).
  - exact (config_try_block p GetAll req).
Qed.

(** Reading does not write: neither [read_item] nor [get_all_items]
    changes a row or the sequence, whatever happens to them. *)
Section Reads.

Context (t : Table) (n : Z).

Lemma db_get_db_connection : keeps (db_same t n) get_db_connection.
Proof.
  apply keeps_try_except.
  - intros w Hw.
    unfold getconn, bind, gets, modify, server_call, ret, raise.
    destruct (idle (db_pool w)); simpl; [|done].
    destruct (Nat.eqb _ _); [done|].
    by destruct (faults w) as [|[e|] fs].
  - intros cl e Hcl. apply list_elem_of_singleton in Hcl as ->. simpl.
    apply keeps_bind; [by apply keeps_modify|]. intros; apply keeps_raise.
Qed.

Lemma db_putconn conn : keeps (db_same t n) (putconn conn).
Proof.
  intros w Hw. unfold putconn, bind, gets, modify, raise.
  by destruct (used (db_pool w)).
Qed.

Lemma db_execute_select cursor params :
  keeps (db_same t n) (execute adapt_col id_in cursor sql_select params).
Proof.
  unfold execute. change (parse_sql sql_select) with (Some SelectItem).
  unfold run_statement. repeat (keeps_step; try done).
Qed.

Lemma db_execute_select_all cursor params :
  keeps (db_same t n) (execute adapt_col id_in cursor sql_select_all params).
Proof.
  unfold execute. change (parse_sql sql_select_all) with (Some SelectItems).
  unfold run_statement. repeat (keeps_step; try done).
Qed.

Ltac reads_step :=
  lazymatch goal with
  | |- keeps _ (bind _ _) =>
      apply keeps_bind;
      [first [ apply db_get_db_connection | apply db_putconn
             | apply db_execute_select | apply db_execute_select_all
             | apply keeps_pure; solve_pure ]
      | intros ?]
  | |- keeps _ (if ?b then _ else _) => destruct b
  | |- keeps _ (ret _) => apply keeps_ret
  end.

Lemma db_read_item req : keeps (db_same t n) (read_item adapt_col id_in req).
Proof.
  apply keeps_except_clauses; [done|].
  unfold read_item_try, conn_cursor, cursor_close. cbv zeta.
  repeat reads_step.
Qed.

Lemma db_get_all_items req :
  keeps (db_same t n) (get_all_items adapt_col id_in req).
Proof.
  apply keeps_except_clauses; [done|].
  unfold get_all_items_try, conn_cursor, cursor_close.
  repeat reads_step.
Qed.

End Reads.

End Kept.

(** ** The sequence stays ahead of the keys *)

Section Sequence.

Context (adapt_col : pyval → exn + pyval) (id_in : string → exn + Z).

Lemma ahead_mono t n m : ahead t n → n ≤ m → ahead t m.
Proof. intros H Hle k Hk. specialize (H k Hk). lia. Qed.

Lemma ahead_insert t n r : ahead t n → ahead (<[n := r]> t) (n + 1).
Proof.
  intros H k. rewrite lookup_insert. case_decide; [lia|].
  intros Hk. specialize (H k Hk). lia.
Qed.

Lemma ahead_alter t n f k : ahead t n → ahead (alter f k t) n.
Proof.
  intros H j. rewrite lookup_alter. case_decide; [subst|by apply H].
  rewrite fmap_is_Some. apply H.
Qed.

Lemma ahead_delete t n k : ahead t n → ahead (delete k t) n.
Proof.
  intros H j. rewrite lookup_delete. case_decide; [by intros [? ?]|apply H].
Qed.

Lemma ahead_visible w : seq_ahead w → ahead (visible w) (seq w).
Proof.
  intros [Ht Hx]. unfold visible. destruct (txn w) as [t|]; [by apply Hx|done].
Qed.

Lemma seq_ahead_fresh w : seq_ahead w → table w !! seq w = None.
Proof.
  intros [Ht _]. destruct (table w !! seq w) eqn:Hk; [|done].
  specialize (Ht (seq w)). rewrite Hk in Ht. specialize (Ht (mk_is_Some _ _ eq_refl)). lia.
Qed.

Lemma seq_ahead_startup env t n fs : ahead t n → seq_ahead (startup env t n fs).
Proof. by intros H; split. Qed.

(** A world that differs from one with the sequence ahead only in the
    rows its transaction sees. *)
Lemma seq_ahead_txn w t :
  seq_ahead w → ahead t (seq w) → seq_ahead (set_txn (Some t) w).
Proof. intros [Ht _] H. split; [done|]. by intros ? [= <-]. Qed.

Lemma seq_ahead_no_txn w : seq_ahead w → seq_ahead (set_txn None w).
Proof. by intros [Ht _]. Qed.

Lemma seq_ahead_run_statement st params :
  keeps seq_ahead (run_statement adapt_col id_in st params).
Proof.
  intros w Hw. pose proof (ahead_visible w Hw) as Hv.
  unfold run_statement, id_param, bind, lift, gets, modify, server_call, ret,
    raise.
  repeat case_match; simplify_eq /=; try done;
    try (apply seq_ahead_txn; [done|]);
    try apply ahead_alter; try apply ahead_delete; try done.
  all: split; simpl; [eapply ahead_mono; [apply (proj1 Hw)|lia]|].
  all: intros t Ht;
    first [ injection Ht as <-; by apply ahead_insert
          | eapply ahead_mono; [by apply (proj2 Hw)|lia] ].
Qed.

Lemma seq_ahead_execute cursor sql params :
  keeps seq_ahead (execute adapt_col id_in cursor sql params).
Proof.
  unfold execute. apply keeps_bind; [by apply keeps_modify|]. intros _.
  destruct (parse_sql sql); [|apply keeps_raise].
  apply keeps_bind; [apply seq_ahead_run_statement|]. intros; apply keeps_ret.
Qed.

Lemma seq_ahead_commit conn : keeps seq_ahead (commit conn).
Proof.
  intros w Hw. pose proof (ahead_visible w Hw) as Hv.
  unfold commit, bind, gets, modify, server_call.
  simpl. destruct (faults w) as [|[e|] fs]; simpl;
    first [exact Hw | split; [exact Hv | intros ? [=]]].
Qed.

Lemma seq_ahead_get_db_connection : keeps seq_ahead get_db_connection.
Proof.
  apply keeps_try_except.
  - intros w Hw.
    unfold getconn, bind, gets, modify, server_call, ret, raise.
    destruct (idle (db_pool w)); simpl;
      [destruct (Nat.eqb _ _); [|destruct (faults w) as [|[e|] fs]]|];
      simpl; first [exact Hw | split; [exact (proj1 Hw) | intros ? [=]]].
  - intros cl e Hcl. apply list_elem_of_singleton in Hcl as ->. simpl.
    apply keeps_bind; [by apply keeps_modify|]. intros; apply keeps_raise.
Qed.

Lemma seq_ahead_putconn conn : keeps seq_ahead (putconn conn).
Proof.
  intros w Hw. unfold putconn, bind, gets, modify, raise.
  destruct (used (db_pool w)); simpl;
    first [exact Hw | split; [exact (proj1 Hw) | intros ? [=]]].
Qed.

(** Every handler leaves the sequence ahead, so the key the next
    [INSERT] draws is free. *)
Lemma seq_ahead_handle h req :
  keeps seq_ahead (handle adapt_col id_in h req).
Proof.
  destruct h; simpl; (apply keeps_except_clauses; [done|]);
    unfold create_item_try, read_item_try, update_item_try, delete_item_try,
      get_all_items_try, conn_cursor, cursor_close;
    cbv zeta;
    repeat lazymatch goal with
      | |- keeps _ (bind _ _) =>
          apply keeps_bind;
          [first [ apply seq_ahead_get_db_connection | apply seq_ahead_putconn
                 | apply seq_ahead_execute | apply seq_ahead_commit
                 | apply keeps_pure; solve_pure ]
          | intros ?]
      | |- keeps _ (if ?b then _ else _) => destruct b
      | |- keeps _ (ret _) => apply keeps_ret
      end.
Qed.

End Sequence.

(** * The claims *)

Section Claims.

Context (adapt_col : pyval → exn + pyval) (id_in : string → exn + Z).

Local Abbreviation create_item := (create_item adapt_col id_in).
Local Abbreviation read_item := (read_item adapt_col id_in).
Local Abbreviation update_item := (update_item adapt_col id_in).
Local Abbreviation delete_item := (delete_item adapt_col id_in).
Local Abbreviation get_all_items := (get_all_items adapt_col id_in).
Local Abbreviation try_block := (try_block adapt_col id_in).
Local Abbreviation handle := (handle adapt_col id_in).

Lemma handle_unfold h req :
  handle h req = try_except (try_block h req) except_clauses.
Proof. by destruct h. Qed.

Lemma falsy_missing_or_empty key d :
  missing_or_empty key d → truthy (default PyNone (dict_lookup key d)) = false.
Proof. by intros [-> | ->]. Qed.

(** The presence check of [create_item] and [update_item]: a falsy
    [name] or [description] ends the [try] block at once. *)
Lemma create_item_try_400 req d w :
  json_body req = Some (PyDict d) →
  truthy (default PyNone (dict_lookup "name" d)) = false
  ∨ truthy (default PyNone (dict_lookup "description" d)) = false →
  create_item_try adapt_col id_in req w
  = (Returned
       (Response
          (Text "Missing 'name' or 'description' in the request body.") 400),
     w).
Proof.
  intros Hb Hf. unfold create_item_try.
  erewrite bind_returned by (by apply get_json_some).
  erewrite bind_returned by reflexivity.
  erewrite bind_returned by reflexivity.
  by destruct Hf as [-> | ->]; rewrite ?orb_true_r.
Qed.

Lemma update_item_try_400 req d w :
  json_body req = Some (PyDict d) →
  truthy (default PyNone (dict_lookup "name" d)) = false
  ∨ truthy (default PyNone (dict_lookup "description" d)) = false →
  update_item_try adapt_col id_in req w
  = (Returned
       (Response
          (Text "Missing 'name' or 'description' in the request body.") 400),
     w).
Proof.
  intros Hb Hf. unfold update_item_try. cbv zeta.
  erewrite bind_returned by (by apply get_json_some).
  erewrite bind_returned by reflexivity.
  erewrite bind_returned by reflexivity.
  by destruct Hf as [-> | ->]; rewrite ?orb_true_r.
Qed.

(** C1. For a request whose body is a JSON object holding non-empty
    strings under [name] and [description], and a storage that takes
    it (no call fails, the pool has a connection, the columns keep the
    two strings as they are, the sequence's next value is free),
    [create_item] inserts exactly one row, keyed by the sequence's value,
    and answers 201 with [{id, message}] where [id] is that key; a
    [read_item] of that key afterwards answers 200 with the same name and
    description. *)
Theorem create_item_then_read req rreq w d name description key :
  json_body req = Some (PyDict d) →
  dict_lookup "name" d = Some (PyStr name) → name ≠ "" →
  dict_lookup "description" d = Some (PyStr description) → description ≠ "" →
  adapt_col (PyStr name) = inr (PyStr name) →
  adapt_col (PyStr description) = inr (PyStr description) →
  calm w → table w !! seq w = None →
  route_params rreq !! "id" = Some key → id_in key = inr (seq w) →
  ∃ w' w'',
    create_item req w
    = (Returned
         (Response
            (JsonDumps (PyDict [ ("id", PyInt (seq w));
                                 ("message", PyStr "Item created successfully") ]))
            201), w')
    ∧ table w' = <[seq w := (PyStr name, PyStr description)]> (table w)
    ∧ size (table w') = S (size (table w))
    ∧ read_item rreq w'
      = (Returned
           (Response
              (JsonDumps (PyDict [ ("id", PyInt (seq w));
                                   ("name", PyStr name);
                                   ("description", PyStr description) ]))
              200), w'').
Proof.
  intros Hb Hn Hne Hd Hde Han Had Hcalm Hfresh Hr Hk.
  destruct (create_item_calm adapt_col id_in req w d name description)
    as (w' & Hc & Ht & Hs & Hcalm'); try done.
  destruct (read_item_calm adapt_col id_in rreq w' key (seq w))
    as (w'' & Hrd & _); try done.
  exists w', w''. split; [done|]. split; [done|].
  split; [by rewrite Ht, map_size_insert_None|].
  by rewrite Hrd, Ht, lookup_insert_eq.
Qed.

(** C2. When the body is a JSON object in which [name] or [description]
    is missing or empty, [create_item] and [update_item] answer 400 and
    the world is what it was: no connection taken, no statement sent,
    no row changed. *)
Theorem missing_field_400 req w d :
  json_body req = Some (PyDict d) →
  missing_or_empty "name" d ∨ missing_or_empty "description" d →
  create_item req w
  = (Returned
       (Response
          (Text "Missing 'name' or 'description' in the request body.") 400),
     w)
  ∧ update_item req w
    = (Returned
         (Response
            (Text "Missing 'name' or 'description' in the request body.") 400),
       w).
Proof.
  intros Hb Hm.
  assert (truthy (default PyNone (dict_lookup "name" d)) = false
          ∨ truthy (default PyNone (dict_lookup "description" d)) = false)
    as Hf by (destruct Hm; [left|right]; by apply falsy_missing_or_empty).
  split; apply try_except_returned.
  - by eapply create_item_try_400.
  - by eapply update_item_try_400.
Qed.

(** C3. For an id the storage reads as the key [k], and with no failure
    of the storage, [read_item] answers 200 with [{id, name,
    description}] of the row keyed [k] when there is one and 404 with
    "Item not found." when there is none; in both cases, and in fact
    however the call ends, rows and sequence are unchanged. *)
Theorem read_item_found_or_not req w key k :
  route_params req !! "id" = Some key → id_in key = inr k → calm w →
  ∃ w',
    read_item req w
    = (Returned match table w !! k with
                | Some (name, description) =>
                    Response
                      (JsonDumps (PyDict [ ("id", PyInt k); ("name", name);
                                           ("description", description) ]))
                      200
                | None => Response (Text "Item not found.") 404
                end, w')
    ∧ table w' = table w ∧ seq w' = seq w
    ∧ ∀ req0 w0, db_same (table w0) (seq w0) (read_item req0 w0).2.
Proof.
  intros Hr Hk Hcalm.
  destruct (read_item_calm adapt_col id_in req w key k)
    as (w' & Hrd & Ht & Hs & _); try done.
  exists w'. split; [|split; [done|split; [done|]]].
  - rewrite Hrd. by destruct (table w !! k) as [[name description]|].
  - intros req0 w0.
    pose proof (db_read_item adapt_col id_in (table w0) (seq w0) req0 w0) as H.
    destruct (read_item req0 w0) as [[r|e] w1]; by apply H.
Qed.

(** C4. For an id the storage reads as the key [k], a body with
    non-empty strings [name] and [description], and no failure of the
    storage, [update_item] answers 200 whether or not a row is keyed [k]:
    the answer is the same in both cases, and what happens to the rows is
    [alter], which changes the row keyed [k] if there is one and nothing
    otherwise.  When there is one, a later [read_item] of [k] answers 200
    with the submitted name and description. *)
Theorem update_item_200 req rreq w d name description key key' k :
  json_body req = Some (PyDict d) →
  dict_lookup "name" d = Some (PyStr name) → name ≠ "" →
  dict_lookup "description" d = Some (PyStr description) → description ≠ "" →
  adapt_col (PyStr name) = inr (PyStr name) →
  adapt_col (PyStr description) = inr (PyStr description) →
  route_params req !! "id" = Some key → id_in key = inr k →
  route_params rreq !! "id" = Some key' → id_in key' = inr k →
  calm w →
  ∃ w',
    update_item req w
    = (Returned
         (Response (Text ("Item " +:+ key +:+ " updated successfully.")) 200),
       w')
    ∧ table w' = alter (λ _, (PyStr name, PyStr description)) k (table w)
    ∧ (table w !! k = None → table w' = table w)
    ∧ (is_Some (table w !! k) →
       ∃ w'',
         read_item rreq w'
         = (Returned
              (Response
                 (JsonDumps (PyDict [ ("id", PyInt k);
                                      ("name", PyStr name);
                                      ("description", PyStr description) ]))
                 200), w'')).
Proof.
  intros Hb Hn Hne Hd Hde Han Had Hr Hk Hr' Hk' Hcalm.
  destruct (update_item_calm adapt_col id_in req w d name description key k)
    as (w' & Hu & Ht & _ & Hcalm'); try done.
  exists w'. split; [done|]. split; [done|]. split.
  - intros Hnone. rewrite Ht. apply map_eq. intros j.
    rewrite lookup_alter. case_decide; [subst; by rewrite Hnone|done].
  - intros [r Hsome].
    destruct (read_item_calm adapt_col id_in rreq w' key' k)
      as (w'' & Hrd & _); try done.
    exists w''. rewrite Hrd, Ht, lookup_alter.
    case_decide; [|done]. by rewrite Hsome.
Qed.

(** C5. For an id the storage reads as the key [k] and no failure of the
    storage, [delete_item] answers 200 whether or not a row is keyed [k];
    afterwards no row is keyed [k], every other row is as it was, and a
    [read_item] of [k] answers 404. *)
Theorem delete_item_200 req rreq w key key' k :
  route_params req !! "id" = Some key → id_in key = inr k →
  route_params rreq !! "id" = Some key' → id_in key' = inr k →
  calm w →
  ∃ w' w'',
    delete_item req w
    = (Returned
         (Response (Text ("Item " +:+ key +:+ " deleted successfully.")) 200),
       w')
    ∧ table w' = delete k (table w)
    ∧ (∀ j, j ≠ k → table w' !! j = table w !! j)
    ∧ read_item rreq w'
      = (Returned (Response (Text "Item not found.") 404), w'').
Proof.
  intros Hr Hk Hr' Hk' Hcalm.
  destruct (delete_item_calm adapt_col id_in req w key k)
    as (w' & Hd & Ht & _ & Hcalm'); try done.
  destruct (read_item_calm adapt_col id_in rreq w' key' k)
    as (w'' & Hrd & _); try done.
  exists w', w''. split; [done|]. split; [done|]. split.
  - intros j Hj. by rewrite Ht, lookup_delete_ne.
  - by rewrite Hrd, Ht, lookup_delete_eq.
Qed.

Global Instance item_json_inj : Inj (=) (=) item_json.
Proof. intros [k [n d]] [k' [n' d']] H. unfold item_json in H. by simplify_eq /=. Qed.

(** C6. With no failure of the storage, [get_all_items] answers 404 with
    "No items found." exactly when [items] has no row; otherwise it
    answers 200 with a JSON array that has one entry [{id, name,
    description}] for each row, holding the row's values, and no other
    entry.  The rows are unchanged, however the call ends. *)
Theorem get_all_items_404_iff_empty req w :
  calm w →
  ∃ r w',
    get_all_items req w = (Returned r, w')
    ∧ table w' = table w
    ∧ (table w = ∅ ↔ r = Response (Text "No items found.") 404)
    ∧ (table w ≠ ∅ →
       ∃ entries,
         r = mk_response (JsonDumps (PyList entries)) 200
               (Some "application/json")
         ∧ length entries = size (table w)
         ∧ NoDup entries
         ∧ ∀ k name description,
             table w !! k = Some (name, description)
             ↔ PyDict [ ("id", PyInt k); ("name", name);
                        ("description", description) ] ∈ entries)
    ∧ ∀ req0 w0, db_same (table w0) (seq w0) (get_all_items req0 w0).2.
Proof.
  intros Hcalm.
  destruct (get_all_items_calm adapt_col id_in req w)
    as (w' & Hg & Ht & _); [done|].
  eexists _, w'. split; [exact Hg|]. split; [done|].
  split; [|split].
  - destruct (decide (table w = ∅)); split; done.
  - intros Hne. destruct (decide (table w = ∅)); [done|].
    eexists. split; [done|].
    split; [by rewrite length_fmap, length_map_to_list|].
    split; [apply NoDup_fmap; [apply _|apply NoDup_map_to_list]|].
    intros k name description.
    rewrite <- elem_of_map_to_list, list_elem_of_fmap. split.
    + intros Hin. by exists (k, (name, description)).
    + intros ([k' [n' d']] & Heq & Hin). unfold item_json in Heq.
      by simplify_eq /=.
  - intros req0 w0.
    pose proof (db_get_all_items adapt_col id_in (table w0) (seq w0) req0 w0)
      as H.
    destruct (get_all_items req0 w0) as [[r|e] w1]; by apply H.
Qed.

(** C7. Every handler, on every request and in every world, returns a
    response: no exception leaves it.  When its [try] block raises an
    instance of [psycopg2.DatabaseError] the response is 500 with the
    text "Database error occurred."; when it raises anything else the
    response is 500 with the text "An unexpected error occurred.".
    Neither text depends on the message of the exception. *)
Theorem handlers_catch_everything h req w :
  ∃ resp w',
    handle h req w = (Returned resp, w')
    ∧ match try_block h req w with
      | (Returned r, _) => resp = r
      | (Raised e, _) =>
          resp = Response
                   (Text (if isinstance e DatabaseError
                          then "Database error occurred."
                          else "An unexpected error occurred.")) 500
      end.
Proof.
  rewrite handle_unfold, except_clauses_catch.
  destruct (try_block h req w) as [[r|e] w1]; eauto.
Qed.

(** C8. In a world whose pool is within its bounds: when the [try] block
    of a handler raises after [getconn] handed it a connection and
    before [putconn] took it back, the handler answers 500 and the pool
    can hand out one connection less than before the request; when the
    [try] block returns, the handler answers with a status other than
    500 and the pool can hand out as many as before. *)
Theorem connection_leak_on_error h req w :
  pool_ok w →
  match try_block h req w with
  | (Raised e, w1) =>
      ∀ evs : list Event,
        events w1 = (evs ++ events w)%list →
        EvGetconn ∈ evs → EvPutconn ∉ evs →
        ∃ resp w',
          handle h req w = (Returned resp, w')
          ∧ status_code resp = 500
          ∧ (available w' + 1 = available w)%nat
  | (Returned r, w1) =>
      handle h req w = (Returned r, w1)
      ∧ status_code r ≠ 500
      ∧ available w1 = available w
  end.
Proof.
  intros Hok.
  pose proof (try_block_phase adapt_col id_in w h req w (in_phase_start w Hok))
    as Hph.
  pose proof (try_block_status adapt_col id_in h req w I) as Hst.
  rewrite handle_unfold, except_clauses_catch.
  destruct (try_block h req w) as [[r|e] w1].
  - split; [done|]. split; [done|].
    unfold available.
    destruct Hph as [((_ & -> & _) & _ & evs & _ & -> & _)
                    |((_ & -> & _) & _ & evs & _ & -> & _)]; done.
  - intros evs Hev Hg Hr. eexists _, _. split; [done|]. split; [done|].
    destruct Hph as (ph & (_ & Hmax & _) & Hok1 & evs' & Hev' & Hph).
    rewrite Hev' in Hev. apply app_inv_tail in Hev as ->.
    unfold available, pool_ok in *. simpl.
    destruct ph; [tauto| |tauto].
    destruct Hph as (Hu & _). lia.
Qed.

(** C9. The pool is made by a constructor that takes its minimum and
    maximum size; the module calls it once, at import, with the sizes 1
    and 10 and with host, database, user, password and port read from
    the environment, the port being "5432" when [DB_PORT] is not set.
    No handler changes sizes or connection parameters afterwards. *)
Theorem pool_configuration env :
  (∀ mn mx kw,
     minconn (SimpleConnectionPool mn mx kw) = mn
     ∧ maxconn (SimpleConnectionPool mn mx kw) = mx
     ∧ kwargs (SimpleConnectionPool mn mx kw) = kw
     ∧ idle (SimpleConnectionPool mn mx kw) = mn
     ∧ used (SimpleConnectionPool mn mx kw) = O)
  ∧ minconn (init_db_pool env) = 1%nat
  ∧ maxconn (init_db_pool env) = 10%nat
  ∧ kwargs (init_db_pool env)
    = [ ("host", env !! "DB_HOST");
        ("database", env !! "DB_NAME");
        ("user", env !! "DB_USER");
        ("password", env !! "DB_PASSWORD");
        ("port", Some match env !! "DB_PORT" with
                      | Some port => port
                      | None => "5432"
                      end) ]
  ∧ (∀ t n fs, db_pool (startup env t n fs) = init_db_pool env)
  ∧ ∀ h req w, same_config (db_pool (handle h req w).2) (db_pool w).
Proof.
  split; [done|]. split; [done|]. split; [done|].
  split; [by unfold init_db_pool, DB_CONFIG, getenv_default; simpl;
             destruct (env !! "DB_PORT")|].
  split; [done|].
  intros h req w.
  pose proof (config_handle adapt_col id_in (db_pool w) h req w) as H.
  destruct (handle h req w) as [[r|e] w1]; by apply H.
Qed.

(** C10. When the body is not JSON, [create_item] and [update_item]
    answer 500 with "An unexpected error occurred.", not 400:
    [get_json] raises a [ValueError] before the presence check is
    reached.  Nothing but the log changes. *)
Theorem unparseable_body_500 req w :
  json_body req = None →
  let w' :=
    add_log "Unexpected error: HTTP request does not contain valid JSON data" w
  in
  create_item req w
  = (Returned (Response (Text "An unexpected error occurred.") 500), w')
  ∧ update_item req w
    = (Returned (Response (Text "An unexpected error occurred.") 500), w')
  ∧ table w' = table w ∧ seq w' = seq w
  ∧ db_pool w' = db_pool w ∧ events w' = events w.
Proof.
  intros Hb w'.
  assert (get_json req w
          = (Raised (mk_exn ValueError
                       "HTTP request does not contain valid JSON data"), w))
    as Hj by (unfold get_json; by rewrite Hb).
  split; [|split; [|done]].
  - change (create_item req w)
      with (try_except (create_item_try adapt_col id_in req) except_clauses w).
    rewrite except_clauses_catch.
    unfold create_item_try. by erewrite bind_raised by exact Hj.
  - change (update_item req w)
      with (try_except (update_item_try adapt_col id_in req) except_clauses w).
    rewrite except_clauses_catch.
    unfold update_item_try. cbv zeta. by erewrite bind_raised by exact Hj.
Qed.

End Claims.

(** * The claims on a database with one row *)

Lemma create_item_then_read_witness :
  calm fresh_world ∧
  ∃ w' w'',
    create_item text_column decimal_id
      (item_request (PyStr "A") (PyStr "B") ∅) fresh_world
    = (Returned
         (Response
            (JsonDumps (PyDict [ ("id", PyInt 1);
                                 ("message", PyStr "Item created successfully") ]))
            201), w')
    ∧ table w' = <[1 := (PyStr "A", PyStr "B")]> ∅
    ∧ size (table w') = 1%nat
    ∧ read_item text_column decimal_id (id_request "1") w'
      = (Returned
           (Response
              (JsonDumps (PyDict [ ("id", PyInt 1); ("name", PyStr "A");
                                   ("description", PyStr "B") ]))
              200), w'').
Proof.
  assert (calm fresh_world) as Hcalm by (split; [reflexivity | simpl; lia]).
  split; [exact Hcalm|].
  apply (create_item_then_read text_column decimal_id
           (item_request (PyStr "A") (PyStr "B") ∅) (id_request "1")
           fresh_world [ ("name", PyStr "A"); ("description", PyStr "B") ]
           "A" "B" "1");
    try reflexivity; try discriminate; exact Hcalm.
Defined.

Lemma missing_field_400_witness :
  missing_or_empty "description" [ ("name", PyStr "A") ] ∧
  create_item text_column decimal_id
    (mk_request (Some (PyDict [ ("name", PyStr "A") ])) ∅) fresh_world
  = (Returned
       (Response
          (Text "Missing 'name' or 'description' in the request body.") 400),
     fresh_world)
  ∧ update_item text_column decimal_id
      (mk_request (Some (PyDict [ ("name", PyStr "A") ])) ∅) fresh_world
    = (Returned
         (Response
            (Text "Missing 'name' or 'description' in the request body.") 400),
       fresh_world).
Proof.
  assert (missing_or_empty "description" [ ("name", PyStr "A") ]) as Hm
    by (left; reflexivity).
  split; [exact Hm|].
  apply (missing_field_400 text_column decimal_id _ fresh_world
           [ ("name", PyStr "A") ]); [reflexivity | right; exact Hm].
Defined.

Lemma read_item_found_or_not_witness :
  calm one_row_world ∧
  ∃ w',
    read_item text_column decimal_id (id_request "1") one_row_world
    = (Returned
         (Response
            (JsonDumps (PyDict [ ("id", PyInt 1); ("name", PyStr "A");
                                 ("description", PyStr "B") ]))
            200), w')
    ∧ table w' = table one_row_world ∧ seq w' = seq one_row_world.
Proof.
  assert (calm one_row_world) as Hcalm by (split; [reflexivity | simpl; lia]).
  split; [exact Hcalm|].
  destruct (read_item_found_or_not text_column decimal_id (id_request "1")
              one_row_world "1" 1)
    as (w' & Hrd & Ht & Hs & _); [reflexivity | reflexivity | exact Hcalm |].
  exists w'. split; [exact Hrd|]. split; [exact Ht | exact Hs].
Defined.

Lemma update_item_200_witness :
  calm one_row_world ∧
  ∃ w',
    update_item text_column decimal_id
      (item_request (PyStr "C") (PyStr "D") {[ "id" := "1" ]}) one_row_world
    = (Returned (Response (Text "Item 1 updated successfully.") 200), w')
    ∧ table w' = {[ 1 := (PyStr "C", PyStr "D") ]}
    ∧ ∃ w'',
        read_item text_column decimal_id (id_request "1") w'
        = (Returned
             (Response
                (JsonDumps (PyDict [ ("id", PyInt 1); ("name", PyStr "C");
                                     ("description", PyStr "D") ]))
                200), w'').
Proof.
  assert (calm one_row_world) as Hcalm by (split; [reflexivity | simpl; lia]).
  split; [exact Hcalm|].
  destruct (update_item_200 text_column decimal_id
              (item_request (PyStr "C") (PyStr "D") {[ "id" := "1" ]})
              (id_request "1") one_row_world
              [ ("name", PyStr "C"); ("description", PyStr "D") ]
              "C" "D" "1" "1" 1)
    as (w' & Hu & Ht & _ & Hrd);
    try reflexivity; try discriminate; try exact Hcalm.
  exists w'. split; [exact Hu|]. split.
  - rewrite Ht. simpl. apply map_eq. intros j.
    rewrite lookup_alter. case_decide; [subst|];
      by rewrite ?lookup_singleton_eq, ?lookup_singleton_ne.
  - apply Hrd. exists (PyStr "A", PyStr "B"). reflexivity.
Defined.

Lemma delete_item_200_witness :
  calm one_row_world ∧
  ∃ w' w'',
    delete_item text_column decimal_id (id_request "1") one_row_world
    = (Returned (Response (Text "Item 1 deleted successfully.") 200), w')
    ∧ table w' = ∅
    ∧ read_item text_column decimal_id (id_request "1") w'
      = (Returned (Response (Text "Item not found.") 404), w'').
Proof.
  assert (calm one_row_world) as Hcalm by (split; [reflexivity | simpl; lia]).
  split; [exact Hcalm|].
  destruct (delete_item_200 text_column decimal_id (id_request "1")
              (id_request "1") one_row_world "1" "1" 1)
    as (w' & w'' & Hd & Ht & _ & Hrd);
    try reflexivity; try exact Hcalm.
  exists w', w''. split; [exact Hd|]. split; [|exact Hrd].
  rewrite Ht. simpl. apply delete_singleton_eq.
Defined.

Lemma get_all_items_404_iff_empty_witness :
  calm one_row_world ∧
  ∃ w' entries,
    get_all_items text_column decimal_id (mk_request None ∅) one_row_world
    = (Returned
         (mk_response (JsonDumps (PyList entries)) 200
            (Some "application/json")), w')
    ∧ table w' = table one_row_world
    ∧ length entries = 1%nat
    ∧ PyDict [ ("id", PyInt 1); ("name", PyStr "A");
               ("description", PyStr "B") ] ∈ entries.
Proof.
  assert (calm one_row_world) as Hcalm by (split; [reflexivity | simpl; lia]).
  split; [exact Hcalm|].
  destruct (get_all_items_404_iff_empty text_column decimal_id
              (mk_request None ∅) one_row_world Hcalm)
    as (r & w' & Hg & Ht & _ & Hrows & _).
  destruct Hrows as (entries & -> & Hlen & _ & Hin).
  { intros He. apply (f_equal (λ t : Table, t !! 1)) in He.
    discriminate He. }
  exists w', entries. split; [exact Hg|]. split; [exact Ht|]. split.
  - rewrite Hlen. reflexivity.
  - apply Hin. reflexivity.
Defined.

Lemma connection_leak_on_error_witness :
  pool_ok fresh_world ∧
  ∃ resp w',
    handle text_column decimal_id Create
      leaking_request fresh_world
    = (Returned resp, w')
    ∧ status_code resp = 500
    ∧ (available w' + 1 = available fresh_world)%nat.
Proof.
  assert (pool_ok fresh_world) as Hok by (unfold pool_ok; simpl; lia).
  split; [exact Hok|].
  pose proof (connection_leak_on_error text_column decimal_id Create
                leaking_request fresh_world Hok) as H.
  assert (∃ e w1,
            try_block text_column decimal_id Create leaking_request
              fresh_world = (Raised e, w1)
            ∧ events w1
              = [ EvExecute sql_insert [ PyDict [ ("a", PyInt 1) ]; PyStr "B" ];
                  EvGetconn ]) as (e & w1 & Hrun & Hev)
    by (eexists _, _; split; vm_compute; reflexivity).
  rewrite Hrun in H.
  apply (H [ EvExecute sql_insert [ PyDict [ ("a", PyInt 1) ]; PyStr "B" ];
             EvGetconn ]).
  - exact Hev.
  - apply list_elem_of_further, list_elem_of_here.
  - rewrite !not_elem_of_cons. repeat split; try discriminate.
    apply not_elem_of_nil.
Defined.

Lemma unparseable_body_500_witness :
  json_body (mk_request None ∅) = None ∧
  create_item text_column decimal_id (mk_request None ∅) fresh_world
  = (Returned (Response (Text "An unexpected error occurred.") 500),
     add_log "Unexpected error: HTTP request does not contain valid JSON data"
       fresh_world)
  ∧ update_item text_column decimal_id (mk_request None ∅) fresh_world
    = (Returned (Response (Text "An unexpected error occurred.") 500),
       add_log "Unexpected error: HTTP request does not contain valid JSON data"
         fresh_world).
Proof.
  split; [reflexivity|].
  destruct (unparseable_body_500 text_column decimal_id (mk_request None ∅)
              fresh_world eq_refl) as (Hc & Hu & _).
  split; [exact Hc | exact Hu].
Defined.

(** * The handlers at work *)

(** The scenario of the specification: create, read, update, delete,
    read. *)
Example scenario :
  let run (c : M HttpResponse) (w : World) := c w in
  let '(r1, w1) := run (create_item text_column decimal_id
                          (item_request (PyStr "A") (PyStr "B") ∅)) fresh_world in
  let '(r2, w2) := run (read_item text_column decimal_id (id_request "1")) w1 in
  let '(r3, w3) := run (update_item text_column decimal_id
                          (item_request (PyStr "C") (PyStr "D")
                             {[ "id" := "1" ]})) w2 in
  let '(r4, w4) := run (delete_item text_column decimal_id (id_request "1")) w3 in
  let '(r5, w5) := run (read_item text_column decimal_id (id_request "1")) w4 in
  r1 = Returned
         (Response
            (JsonDumps (PyDict [ ("id", PyInt 1);
                                 ("message", PyStr "Item created successfully") ]))
            201)
  ∧ r2 = Returned
           (Response
              (JsonDumps (PyDict [ ("id", PyInt 1); ("name", PyStr "A");
                                   ("description", PyStr "B") ]))
              200)
  ∧ r3 = Returned (Response (Text "Item 1 updated successfully.") 200)
  ∧ r4 = Returned (Response (Text "Item 1 deleted successfully.") 200)
  ∧ r5 = Returned (Response (Text "Item not found.") 404)
  ∧ available w5 = available fresh_world.
Proof. vm_compute. repeat split. Qed.

(** A body that is JSON but not an object has no [get]: the presence
    check is not reached and the answer is 500, as for a body that is
    not JSON. *)
Lemma non_object_body_500 (adapt_col : pyval → exn + pyval)
    (id_in : string → exn + Z) req v w :
  json_body req = Some v → (∀ d, v ≠ PyDict d) →
  create_item adapt_col id_in req w
  = (Returned (Response (Text "An unexpected error occurred.") 500),
     add_log "Unexpected error: object has no attribute 'get'" w).
Proof.
  intros Hb Hv. unfold create_item. rewrite except_clauses_catch.
  unfold create_item_try.
  erewrite bind_returned by (by apply get_json_some).
  destruct v; try done. by destruct (Hv d).
Qed.

(** A server that fails at [commit]: the answer is the database error,
    the row is not there, its key is spent and the connection is not
    back in the pool. *)
Example commit_fails :
  let w := startup ∅ ∅ 1
             [ None; Some (mk_exn OperationalError "server closed the connection") ]
  in
  let '(r, w') := create_item text_column decimal_id
                    (item_request (PyStr "A") (PyStr "B") ∅) w in
  r = Returned (Response (Text "Database error occurred.") 500)
  ∧ table w' = ∅ ∧ seq w' = 2
  ∧ log w' = [ "Database error: server closed the connection" ]
  ∧ available w = 10%nat ∧ available w' = 9%nat.
Proof. vm_compute. repeat split. Qed.

(** Ten requests that leak their connection use the pool up: the
    eleventh request, though nothing is wrong with it, is answered
    500. *)
Example pool_used_up :
  let leak w := (create_item text_column decimal_id leaking_request w).2 in
  let w := Nat.iter 10 leak fresh_world in
  available w = O
  ∧ (create_item text_column decimal_id
       (item_request (PyStr "A") (PyStr "B") ∅) w).1
    = Returned (Response (Text "An unexpected error occurred.") 500).
Proof. vm_compute. repeat split. Qed.

(** * Every outcome of a request *)

(** What each call to the pool or to the server leaves behind, whether
    it returns or raises. *)
Section Calls.

Context (adapt_col : pyval → exn + pyval) (id_in : string → exn + Z).

Lemma getconn_spec w :
  match getconn w with
  | (Returned _, w') =>
      table w' = table w ∧ seq w' = seq w ∧ txn w' = None
      ∧ (0 < used (db_pool w'))%nat ∧ log w' = log w
      ∧ events w' = EvGetconn :: events w
  | (Raised e, w') =>
      table w' = table w ∧ seq w' = seq w ∧ db_pool w' = db_pool w
      ∧ events w' = events w
  end.
Proof.
  unfold getconn, bind, gets, modify, server_call, ret, raise.
  destruct (idle (db_pool w)); simpl.
  - destruct (Nat.eqb _ _); simpl; [done|].
    destruct (faults w) as [|[e|] fs]; simpl; repeat split; lia.
  - repeat split; lia.
Qed.

Lemma get_db_connection_spec w :
  match get_db_connection w with
  | (Returned _, w') =>
      table w' = table w ∧ seq w' = seq w ∧ txn w' = None
      ∧ (0 < used (db_pool w'))%nat ∧ log w' = log w
      ∧ events w' = EvGetconn :: events w
  | (Raised e, w') =>
      table w' = table w ∧ seq w' = seq w ∧ db_pool w' = db_pool w
      ∧ events w' = events w
  end.
Proof.
  pose proof (getconn_spec w) as H.
  unfold get_db_connection, try_except.
  destruct (getconn w) as [[c|e] w']; [done|].
  simpl. rewrite isinstance_Exception. done.
Qed.

Lemma execute_insert_spec cursor name description w :
  txn w = None →
  match execute adapt_col id_in cursor sql_insert [name; description] w with
  | (Returned cur, w') =>
      ∃ n d,
        adapt_col name = inr n ∧ adapt_col description = inr d
        ∧ table w !! seq w = None
        ∧ rows cur = Some [PyTuple [PyInt (seq w)]]
        ∧ table w' = table w
        ∧ txn w' = Some (<[seq w := (n, d)]> (table w))
        ∧ seq w' = seq w + 1
        ∧ db_pool w' = db_pool w ∧ log w' = log w
        ∧ events w' = EvExecute sql_insert [name; description] :: events w
  | (Raised e, w') =>
      table w' = table w ∧ db_pool w' = db_pool w
      ∧ events w' = EvExecute sql_insert [name; description] :: events w
  end.
Proof.
  intros Hx. unfold execute.
  change (parse_sql sql_insert) with (Some InsertItem).
  unfold run_statement, bind, lift, gets, modify, server_call, ret, raise,
    visible.
  simpl.
  destruct (adapt_col name) as [e|n]; [done|].
  destruct (adapt_col description) as [e|d]; [done|]. simpl.
  destruct (faults w) as [|[e|] fs]; simpl; rewrite ?Hx; simpl; try done;
    destruct (table w !! seq w) eqn:Hk; simpl; try done;
    by exists n, d.
Qed.

Lemma execute_select_spec cursor item_id w :
  txn w = None →
  match execute adapt_col id_in cursor sql_select [item_id] w with
  | (Returned cur, w') =>
      ∃ ko,
        id_param id_in item_id = inr ko
        ∧ rows cur = Some match ko ≫= λ k, (k,.) <$> table w !! k with
                          | Some r => [row_tuple r]
                          | None => []
                          end
        ∧ table w' = table w ∧ seq w' = seq w
        ∧ db_pool w' = db_pool w ∧ log w' = log w
        ∧ events w' = EvExecute sql_select [item_id] :: events w
  | (Raised e, w') =>
      table w' = table w ∧ seq w' = seq w ∧ db_pool w' = db_pool w
      ∧ events w' = EvExecute sql_select [item_id] :: events w
  end.
Proof.
  intros Hx. unfold execute.
  change (parse_sql sql_select) with (Some SelectItem).
  unfold run_statement, bind, lift, gets, modify, server_call, ret, raise,
    visible.
  simpl.
  destruct (id_param id_in item_id) as [e|ko]; [done|]. simpl.
  destruct (faults w) as [|[e|] fs]; simpl; rewrite ?Hx; simpl; try done;
    by exists ko.
Qed.

Lemma execute_update_spec cursor name description item_id w :
  txn w = None →
  match execute adapt_col id_in cursor sql_update
          [name; description; item_id] w with
  | (Returned cur, w') =>
      ∃ n d ko,
        adapt_col name = inr n ∧ adapt_col description = inr d
        ∧ id_param id_in item_id = inr ko
        ∧ table w' = table w ∧ seq w' = seq w
        ∧ txn w' = Some match ko with
                        | Some k => alter (λ _, (n, d)) k (table w)
                        | None => table w
                        end
        ∧ db_pool w' = db_pool w ∧ log w' = log w
        ∧ events w'
          = EvExecute sql_update [name; description; item_id] :: events w
  | (Raised e, w') =>
      table w' = table w ∧ seq w' = seq w ∧ db_pool w' = db_pool w
      ∧ events w'
        = EvExecute sql_update [name; description; item_id] :: events w
  end.
Proof.
  intros Hx. unfold execute.
  change (parse_sql sql_update) with (Some UpdateItem).
  unfold run_statement, bind, lift, gets, modify, server_call, ret, raise,
    visible.
  simpl.
  destruct (adapt_col name) as [e|n]; [done|].
  destruct (adapt_col description) as [e|d]; [done|].
  destruct (id_param id_in item_id) as [e|ko]; [done|]. simpl.
  destruct (faults w) as [|[e|] fs]; simpl; rewrite ?Hx; simpl; try done;
    by exists n, d, ko.
Qed.

Lemma execute_delete_spec cursor item_id w :
  txn w = None →
  match execute adapt_col id_in cursor sql_delete [item_id] w with
  | (Returned cur, w') =>
      ∃ ko,
        id_param id_in item_id = inr ko
        ∧ table w' = table w ∧ seq w' = seq w
        ∧ txn w' = Some match ko with
                        | Some k => delete k (table w)
                        | None => table w
                        end
        ∧ db_pool w' = db_pool w ∧ log w' = log w
        ∧ events w' = EvExecute sql_delete [item_id] :: events w
  | (Raised e, w') =>
      table w' = table w ∧ seq w' = seq w ∧ db_pool w' = db_pool w
      ∧ events w' = EvExecute sql_delete [item_id] :: events w
  end.
Proof.
  intros Hx. unfold execute.
  change (parse_sql sql_delete) with (Some DeleteItem).
  unfold run_statement, bind, lift, gets, modify, server_call, ret, raise,
    visible.
  simpl.
  destruct (id_param id_in item_id) as [e|ko]; [done|]. simpl.
  destruct (faults w) as [|[e|] fs]; simpl; rewrite ?Hx; simpl; try done;
    by exists ko.
Qed.

Lemma execute_select_all_spec cursor w :
  txn w = None →
  match execute adapt_col id_in cursor sql_select_all [] w with
  | (Returned cur, w') =>
      rows cur = Some (row_tuple <$> map_to_list (table w))
      ∧ table w' = table w ∧ seq w' = seq w
      ∧ db_pool w' = db_pool w ∧ log w' = log w
      ∧ events w' = EvExecute sql_select_all [] :: events w
  | (Raised e, w') =>
      table w' = table w ∧ seq w' = seq w ∧ db_pool w' = db_pool w
      ∧ events w' = EvExecute sql_select_all [] :: events w
  end.
Proof.
  intros Hx. unfold execute.
  change (parse_sql sql_select_all) with (Some SelectItems).
  unfold run_statement, bind, lift, gets, modify, server_call, ret, raise,
    visible.
  simpl.
  destruct (faults w) as [|[e|] fs]; simpl; rewrite ?Hx; simpl; done.
Qed.

(** A commit that raises has changed no row. *)
Lemma commit_spec conn w t :
  txn w = Some t →
  match commit conn w with
  | (Returned _, w') =>
      table w' = t ∧ seq w' = seq w ∧ db_pool w' = db_pool w
      ∧ log w' = log w ∧ events w' = EvCommit :: events w
  | (Raised e, w') =>
      table w' = table w ∧ seq w' = seq w ∧ db_pool w' = db_pool w
      ∧ events w' = EvCommit :: events w
  end.
Proof.
  intros Hx.
  unfold commit, bind, gets, modify, server_call, ret, raise, visible.
  simpl.
  destruct (faults w) as [|[e|] fs]; simpl; rewrite ?Hx; simpl; done.
Qed.

(** Giving back a connection that is out does not fail. *)
Lemma putconn_spec conn w :
  (0 < used (db_pool w))%nat →
  ∃ w',
    putconn conn w = (Returned tt, w')
    ∧ table w' = table w ∧ seq w' = seq w ∧ log w' = log w
    ∧ events w' = EvPutconn :: events w.
Proof.
  intros Hu. unfold putconn, bind, gets, modify.
  destruct (used (db_pool w)) as [|u]; [lia|]. by eexists.
Qed.

End Calls.

(** What the [try] block of each handler does, in every world. *)
Section Blocks.

Context (adapt_col : pyval → exn + pyval) (id_in : string → exn + Z).

Ltac call spec a w' :=
  lazymatch goal with
  | |- context [bind ?c ?k ?w] =>
      let H := fresh "H" in
      let E := fresh "E" in
      pose proof spec as H;
      destruct (c w) as [[a | ?] w'] eqn:E;
      [ rewrite (bind_returned c k w _ _ E)
      | rewrite (bind_raised c k w _ _ E) ]
  end.

Ltac solve_suffix :=
  first [ apply suffix_nil
        | by eexists []
        | by eexists [_]
        | by eexists [_; _]
        | by eexists [_; _; _] ].

Ltac trace evs :=
  exists evs; split; [simpl; congruence | solve_suffix].

Lemma delete_item_try_outcomes req w :
  match delete_item_try adapt_col id_in req w with
  | (Returned r, w') =>
      r = Response
            (Text ("Item " +:+ format_param (route_params_get req "id")
                   +:+ " deleted successfully.")) 200
      ∧ (∃ ko,
           id_param id_in (of_param (route_params_get req "id")) = inr ko
           ∧ table w' = match ko with
                        | Some k => delete k (table w)
                        | None => table w
                        end)
      ∧ seq w' = seq w
      ∧ events w' = (calls_of Delete req ++ events w)%list
  | (Raised e, w') =>
      table w' = table w ∧ seq w' = seq w
      ∧ ∃ evs, events w' = (evs ++ events w)%list
               ∧ evs `suffix_of` calls_of Delete req
  end.
Proof.
  unfold delete_item_try, conn_cursor, cursor_close. cbv zeta.
  call (get_db_connection_spec w) conn w1.
  2:{ destruct H as (? & ? & _ & ?). split; [done|]. split; [done|].
      by trace (@nil Event). }
  destruct H as (Ht & Hs & Hx & Hu & _ & He).
  erewrite bind_returned by reflexivity.
  call (execute_delete_spec adapt_col id_in (mk_cursor None)
          (of_param (route_params_get req "id")) _ Hx) cur w2.
  2:{ destruct H as (Ht1 & Hs1 & _ & He1).
      split; [congruence|]. split; [congruence|].
      trace [EvExecute sql_delete [of_param (route_params_get req "id")];
             EvGetconn]. }
  destruct H as (ko & Hko & Ht1 & Hs1 & Hx1 & Hp1 & _ & He1).
  call (commit_spec conn _ _ Hx1) u w3.
  2:{ destruct H as (Ht2 & Hs2 & _ & He2).
      split; [congruence|]. split; [congruence|].
      trace [EvCommit;
             EvExecute sql_delete [of_param (route_params_get req "id")];
             EvGetconn]. }
  destruct H as (Ht2 & Hs2 & Hp2 & _ & He2).
  erewrite bind_returned by reflexivity.
  destruct (putconn_spec conn w3) as (w4 & Ep & Ht3 & Hs3 & _ & He3);
    [congruence|].
  rewrite (bind_returned _ _ _ _ _ Ep). simpl.
  split; [done|]. split; [|split; [congruence|]].
  - exists ko. split; [done|]. rewrite Ht3, Ht2. by rewrite Ht.
  - rewrite He3, He2, He1, He. done.
Qed.

Lemma update_item_try_outcomes req w d :
  json_body req = Some (PyDict d) →
  let name := field "name" req in
  let description := field "description" req in
  let item_id := route_params_get req "id" in
  match update_item_try adapt_col id_in req w with
  | (Returned r, w') =>
      (truthy name && truthy description = false
       ∧ r = Response
               (Text "Missing 'name' or 'description' in the request body.")
               400
       ∧ w' = w)
      ∨ (truthy name && truthy description = true
         ∧ r = Response
                 (Text ("Item " +:+ format_param item_id
                        +:+ " updated successfully.")) 200
         ∧ (∃ n dd ko,
              adapt_col name = inr n ∧ adapt_col description = inr dd
              ∧ id_param id_in (of_param item_id) = inr ko
              ∧ table w' = match ko with
                           | Some k => alter (λ _, (n, dd)) k (table w)
                           | None => table w
                           end)
         ∧ seq w' = seq w
         ∧ events w' = (calls_of Update req ++ events w)%list)
  | (Raised e, w') =>
      truthy name && truthy description = true
      ∧ table w' = table w ∧ seq w' = seq w
      ∧ ∃ evs, events w' = (evs ++ events w)%list
               ∧ evs `suffix_of` calls_of Update req
  end.
Proof.
  intros Hb. unfold field. rewrite Hb. cbv zeta.
  unfold update_item_try, conn_cursor, cursor_close, calls_of, field.
  rewrite Hb. cbv zeta.
  erewrite bind_returned by (by apply get_json_some).
  erewrite bind_returned by reflexivity.
  erewrite bind_returned by reflexivity.
  set (name := default PyNone (dict_lookup "name" d)).
  set (description := default PyNone (dict_lookup "description" d)).
  destruct (truthy name) eqn:Hn, (truthy description) eqn:Hd; simpl;
    try by left.
  call (get_db_connection_spec w) conn w1.
  2:{ destruct H as (? & ? & _ & ?). split; [done|]. split; [done|].
      split; [done|]. by trace (@nil Event). }
  destruct H as (Ht & Hs & Hx & Hu & _ & He).
  erewrite bind_returned by reflexivity.
  call (execute_update_spec adapt_col id_in (mk_cursor None) name description
          (of_param (route_params_get req "id")) _ Hx) cur w2.
  2:{ destruct H as (Ht1 & Hs1 & _ & He1).
      split; [done|]. split; [congruence|]. split; [congruence|].
      trace [EvExecute sql_update
               [name; description; of_param (route_params_get req "id")];
             EvGetconn]. }
  destruct H as (n & dd & ko & Hn' & Hd' & Hko & Ht1 & Hs1 & Hx1 & Hp1 & _ & He1).
  call (commit_spec conn _ _ Hx1) u w3.
  2:{ destruct H as (Ht2 & Hs2 & _ & He2).
      split; [done|]. split; [congruence|]. split; [congruence|].
      trace [EvCommit;
             EvExecute sql_update
               [name; description; of_param (route_params_get req "id")];
             EvGetconn]. }
  destruct H as (Ht2 & Hs2 & Hp2 & _ & He2).
  erewrite bind_returned by reflexivity.
  destruct (putconn_spec conn w3) as (w4 & Ep & Ht3 & Hs3 & _ & He3);
    [congruence|].
  rewrite (bind_returned _ _ _ _ _ Ep). simpl.
  right. split; [done|]. split; [done|]. split; [|split; [congruence|]].
  - exists n, dd, ko. repeat (split; [done|]). rewrite Ht3, Ht2. by rewrite Ht.
  - rewrite He3, He2, He1, He. done.
Qed.

Lemma create_item_try_outcomes req w d :
  json_body req = Some (PyDict d) →
  let name := field "name" req in
  let description := field "description" req in
  match create_item_try adapt_col id_in req w with
  | (Returned r, w') =>
      (truthy name && truthy description = false
       ∧ r = Response
               (Text "Missing 'name' or 'description' in the request body.")
               400
       ∧ w' = w)
      ∨ (truthy name && truthy description = true
         ∧ r = Response
                 (JsonDumps
                    (PyDict [ ("id", PyInt (seq w));
                              ("message", PyStr "Item created successfully") ]))
                 201
         ∧ (∃ n dd,
              adapt_col name = inr n ∧ adapt_col description = inr dd
              ∧ table w' = <[seq w := (n, dd)]> (table w))
         ∧ table w !! seq w = None
         ∧ seq w' = seq w + 1
         ∧ events w' = (calls_of Create req ++ events w)%list)
  | (Raised e, w') =>
      truthy name && truthy description = true
      ∧ table w' = table w
      ∧ ∃ evs, events w' = (evs ++ events w)%list
               ∧ evs `suffix_of` calls_of Create req
  end.
Proof.
  intros Hb. unfold field. rewrite Hb. cbv zeta.
  unfold create_item_try, conn_cursor, cursor_close, calls_of, field.
  rewrite Hb.
  erewrite bind_returned by (by apply get_json_some).
  erewrite bind_returned by reflexivity.
  erewrite bind_returned by reflexivity.
  set (name := default PyNone (dict_lookup "name" d)).
  set (description := default PyNone (dict_lookup "description" d)).
  destruct (truthy name) eqn:Hn, (truthy description) eqn:Hd; simpl;
    try by left.
  call (get_db_connection_spec w) conn w1.
  2:{ destruct H as (? & ? & _ & ?). split; [done|]. split; [done|].
      by trace (@nil Event). }
  destruct H as (Ht & Hs & Hx & Hu & _ & He).
  erewrite bind_returned by reflexivity.
  call (execute_insert_spec adapt_col id_in (mk_cursor None) name description
          _ Hx) cur w2.
  2:{ destruct H as (Ht1 & _ & He1).
      split; [done|]. split; [congruence|].
      trace [EvExecute sql_insert [name; description]; EvGetconn]. }
  destruct H as (n & dd & Hn' & Hd' & Hk & Hrows & Ht1 & Hx1 & Hs1 & Hp1 & _ & He1).
  unfold fetchone at 1. rewrite Hrows.
  erewrite bind_returned by reflexivity.
  erewrite bind_returned by reflexivity.
  call (commit_spec conn _ _ Hx1) u w3.
  2:{ destruct H as (Ht2 & Hs2 & _ & He2).
      split; [done|]. split; [congruence|].
      trace [EvCommit; EvExecute sql_insert [name; description]; EvGetconn]. }
  destruct H as (Ht2 & Hs2 & Hp2 & _ & He2).
  erewrite bind_returned by reflexivity.
  destruct (putconn_spec conn w3) as (w4 & Ep & Ht3 & Hs3 & _ & He3);
    [congruence|].
  rewrite (bind_returned _ _ _ _ _ Ep). simpl.
  right. split; [done|]. split; [by rewrite Hs|].
  split; [|split; [congruence|split; [congruence|]]].
  - exists n, dd. repeat (split; [done|]). rewrite Ht3, Ht2. by rewrite Ht, Hs.
  - rewrite He3, He2, He1, He. done.
Qed.

Lemma read_item_try_outcomes req w :
  match read_item_try adapt_col id_in req w with
  | (Returned r, w') =>
      table w' = table w ∧ seq w' = seq w
      ∧ events w' = (calls_of Read req ++ events w)%list
      ∧ ∃ ko,
          id_param id_in (of_param (route_params_get req "id")) = inr ko
          ∧ r = match ko ≫= λ k, (k,.) <$> table w !! k with
                | Some row => Response (JsonDumps (item_json row)) 200
                | None => Response (Text "Item not found.") 404
                end
  | (Raised e, w') =>
      table w' = table w ∧ seq w' = seq w
      ∧ ∃ evs, events w' = (evs ++ events w)%list
               ∧ evs `suffix_of` calls_of Read req
  end.
Proof.
  unfold read_item_try, conn_cursor, cursor_close. cbv zeta.
  call (get_db_connection_spec w) conn w1.
  2:{ destruct H as (? & ? & _ & ?). split; [done|]. split; [done|].
      by trace (@nil Event). }
  destruct H as (Ht & Hs & Hx & Hu & _ & He).
  erewrite bind_returned by reflexivity.
  call (execute_select_spec adapt_col id_in (mk_cursor None)
          (of_param (route_params_get req "id")) _ Hx) cur w2.
  2:{ destruct H as (Ht1 & Hs1 & _ & He1).
      split; [congruence|]. split; [congruence|].
      trace [EvExecute sql_select [of_param (route_params_get req "id")];
             EvGetconn]. }
  destruct H as (ko & Hko & Hrows & Ht1 & Hs1 & Hp1 & _ & He1).
  destruct (putconn_spec conn w2) as (w3 & Ep & Ht3 & Hs3 & _ & He3);
    [congruence|].
  unfold fetchone at 1. rewrite Hrows, Ht.
  assert (events w3 = (calls_of Read req ++ events w)%list) as Hev
    by (rewrite He3, He1, He; done).
  destruct (ko ≫= λ k, (k,.) <$> table w !! k) as [[k [n d]]|] eqn:Hrow.
  - erewrite bind_returned by reflexivity.
    erewrite bind_returned by reflexivity.
    rewrite (bind_returned _ _ _ _ _ Ep). simpl.
    split; [congruence|]. split; [congruence|]. split; [done|].
    exists ko. by rewrite Hrow.
  - erewrite bind_returned by reflexivity.
    erewrite bind_returned by reflexivity.
    rewrite (bind_returned _ _ _ _ _ Ep). simpl.
    split; [congruence|]. split; [congruence|]. split; [done|].
    exists ko. by rewrite Hrow.
Qed.

Lemma get_all_items_try_outcomes req w :
  match get_all_items_try adapt_col id_in req w with
  | (Returned r, w') =>
      table w' = table w ∧ seq w' = seq w
      ∧ events w' = (calls_of GetAll req ++ events w)%list
      ∧ r = (if decide (table w = ∅)
             then Response (Text "No items found.") 404
             else mk_response
                    (JsonDumps (PyList (item_json <$> map_to_list (table w))))
                    200 (Some "application/json"))
  | (Raised e, w') =>
      table w' = table w ∧ seq w' = seq w
      ∧ ∃ evs, events w' = (evs ++ events w)%list
               ∧ evs `suffix_of` calls_of GetAll req
  end.
Proof.
  unfold get_all_items_try, conn_cursor, cursor_close.
  call (get_db_connection_spec w) conn w1.
  2:{ destruct H as (? & ? & _ & ?). split; [done|]. split; [done|].
      by trace (@nil Event). }
  destruct H as (Ht & Hs & Hx & Hu & _ & He).
  erewrite bind_returned by reflexivity.
  call (execute_select_all_spec adapt_col id_in (mk_cursor None) _ Hx) cur w2.
  2:{ destruct H as (Ht1 & Hs1 & _ & He1).
      split; [congruence|]. split; [congruence|].
      trace [EvExecute sql_select_all []; EvGetconn]. }
  destruct H as (Hrows & Ht1 & Hs1 & Hp1 & _ & He1).
  destruct (putconn_spec conn w2) as (w3 & Ep & Ht3 & Hs3 & _ & He3);
    [congruence|].
  unfold fetchall at 1. rewrite Hrows, Ht.
  erewrite bind_returned by reflexivity.
  erewrite bind_returned by reflexivity.
  rewrite (bind_returned _ _ _ _ _ Ep).
  assert (events w3 = (calls_of GetAll req ++ events w)%list) as Hev
    by (rewrite He3, He1, He; done).
  unfold truthy. rewrite length_fmap.
  destruct (decide (table w = ∅)) as [Hempty|Hrowsne].
  - rewrite Hempty, map_to_list_empty. simpl.
    split; [congruence|]. split; [congruence|]. done.
  - destruct (map_to_list (table w)) as [|row l] eqn:Hl.
    { by apply map_to_list_empty_iff in Hl. }
    cbn [length Nat.eqb negb].
    erewrite bind_returned by apply mapM_item_dict. simpl.
    split; [congruence|]. split; [congruence|]. done.
Qed.

End Blocks.

(** What the [try] blocks write to the log: nothing when they return, at
    most the line of [get_db_connection] when they raise. *)
Section Logged.

Context (adapt_col : pyval → exn + pyval) (id_in : string → exn + Z).
Context (l0 : list string).

Definition log_is (w : World) : Prop := log w = l0.
Definition log_grew (w : World) : Prop :=
  log w = l0 ∨ ∃ e, log w = ("Error getting connection from pool: " +:+ exn_msg e) :: l0.

Lemma log_get_db_connection :
  triple log_is get_db_connection (λ _, log_is) log_grew.
Proof.
  intros w Hw. pose proof (getconn_spec w) as H.
  unfold get_db_connection, try_except.
  destruct (getconn w) as [[c|e] w'] eqn:E.
  - destruct H as (_ & _ & _ & _ & Hl & _). unfold log_is. congruence.
  - simpl. rewrite isinstance_Exception. simpl. right. exists e.
    revert E. unfold getconn, bind, gets, modify, server_call, ret, raise.
    destruct (idle (db_pool w)); simpl; [|done].
    destruct (Nat.eqb _ _); simpl; [intros [= <- <-]; by rewrite Hw|].
    destruct (faults w) as [|[e'|] fs]; simpl; try done.
    intros [= <- <-]. simpl. by rewrite Hw.
Qed.

Lemma log_execute cursor sql params :
  keeps log_is (execute adapt_col id_in cursor sql params).
Proof. unfold execute, run_statement. repeat (keeps_step; try done). Qed.

Lemma log_commit conn : keeps log_is (commit conn).
Proof. unfold commit. repeat (keeps_step; try done). Qed.

Lemma log_putconn conn : keeps log_is (putconn conn).
Proof.
  intros w Hw. unfold putconn, bind, gets, modify, raise.
  by destruct (used (db_pool w)).
Qed.

Lemma log_call {A} (c : M A) :
  keeps log_is c → triple log_is c (λ _, log_is) log_grew.
Proof. intros H. eapply triple_weaken; [exact H|auto..]. by left. Qed.

Lemma log_try_block h req :
  triple log_is (try_block adapt_col id_in h req) (λ _, log_is) log_grew.
Proof.
  destruct h; simpl;
    unfold create_item_try, read_item_try, update_item_try, delete_item_try,
      get_all_items_try, conn_cursor, cursor_close;
    cbv zeta;
    repeat lazymatch goal with
      | |- triple _ (bind get_db_connection _) _ _ =>
          eapply triple_bind; [apply log_get_db_connection | intros ?]
      | |- triple _ (bind _ _) _ _ =>
          eapply triple_bind;
          [apply log_call;
           first [ apply log_execute | apply log_commit | apply log_putconn
                 | apply keeps_pure; solve_pure ]
          | intros ?]
      | |- triple _ (if ?b then _ else _) _ _ => destruct b
      | |- triple _ (ret _) _ _ => by apply triple_ret
      end.
Qed.

End Logged.

(** * Further properties of the handlers *)

Section Further.

Context (adapt_col : pyval → exn + pyval) (id_in : string → exn + Z).

Local Abbreviation create_item := (create_item adapt_col id_in).
Local Abbreviation read_item := (read_item adapt_col id_in).
Local Abbreviation update_item := (update_item adapt_col id_in).
Local Abbreviation delete_item := (delete_item adapt_col id_in).
Local Abbreviation get_all_items := (get_all_items adapt_col id_in).
Local Abbreviation try_block := (try_block adapt_col id_in).
Local Abbreviation handle := (handle adapt_col id_in).

Lemma handle_catch h req w :
  handle h req w
  = match try_block h req w with
    | (Returned r, w') => (Returned r, w')
    | (Raised e, w') => (Returned (error_response e), add_log (error_log e) w')
    end.
Proof. destruct h; apply except_clauses_catch. Qed.

Lemma id_param_str key ko :
  id_param id_in (PyStr key) = inr ko → ∃ k, id_in key = inr k ∧ ko = Some k.
Proof.
  unfold id_param. destruct (id_in key) as [e|k]; [done|].
  intros [= <-]. by exists k.
Qed.

Lemma andb_false_or (a b : bool) : a && b = false → a = false ∨ b = false.
Proof. destruct a, b; auto. Qed.

Lemma andb_true_and (a b : bool) : a && b = true → a = true ∧ b = true.
Proof. by destruct a, b. Qed.

(** X1. For a body that is a JSON object, in every world and whatever
    the server does, [create_item] answers 400, 201 or 500.  It answers
    400 when [name] or [description] is falsy, and then the world is what
    it was.  Otherwise both are truthy, and either it answers 201 with
    the sequence's value as id, that key was free and the table has
    gained exactly the row under it, holding what the columns made of
    the two values; or it answers 500 and no row has changed. *)
Theorem create_item_outcomes req w d :
  json_body req = Some (PyDict d) →
  ∃ r w',
    create_item req w = (Returned r, w')
    ∧ ((status_code r = 400
        ∧ (truthy (field "name" req) = false
           ∨ truthy (field "description" req) = false)
        ∧ w' = w)
       ∨ (truthy (field "name" req) = true
          ∧ truthy (field "description" req) = true
          ∧ ((r = Response
                    (JsonDumps
                       (PyDict [ ("id", PyInt (seq w));
                                 ("message", PyStr "Item created successfully") ]))
                    201
              ∧ table w !! seq w = None
              ∧ ∃ n dd,
                  adapt_col (field "name" req) = inr n
                  ∧ adapt_col (field "description" req) = inr dd
                  ∧ table w' = <[seq w := (n, dd)]> (table w))
             ∨ (status_code r = 500 ∧ table w' = table w)))).
Proof.
  intros Hb. pose proof (create_item_try_outcomes adapt_col id_in req w d Hb) as H.
  cbv zeta in H.
  change (create_item req w) with (handle Create req w).
  rewrite handle_catch. simpl.
  destruct (create_item_try adapt_col id_in req w) as [[r|e] w'].
  - exists r, w'. split; [done|].
    destruct H as [(Hf & -> & ->)|(Ht & -> & (n & dd & ? & ? & ?) & ? & _)].
    + left. split; [done|]. split; [by apply andb_false_or|done].
    + right. apply andb_true_and in Ht as [? ?]. split; [done|]. split; [done|].
      left. split; [done|]. split; [done|]. by exists n, dd.
  - eexists _, _. split; [done|].
    destruct H as (Ht & ? & _). right.
    apply andb_true_and in Ht as [? ?]. split; [done|]. split; [done|].
    by right.
Qed.

(** X2. For a body that is a JSON object and an id in the route, in
    every world and whatever the server does, [update_item] answers 400,
    200 or 500.  It answers 400 when [name] or [description] is falsy,
    and then the world is what it was.  When it answers 200 the storage
    read the id as a key and the row under that key, if there is one,
    holds what the columns made of the two values; no key was added or
    removed and the sequence has not moved.  When it answers 500 no row
    has changed. *)
Theorem update_item_outcomes req w d key :
  json_body req = Some (PyDict d) →
  route_params req !! "id" = Some key →
  ∃ r w',
    update_item req w = (Returned r, w')
    ∧ seq w' = seq w
    ∧ ((status_code r = 400
        ∧ (truthy (field "name" req) = false
           ∨ truthy (field "description" req) = false)
        ∧ w' = w)
       ∨ (r = Response (Text ("Item " +:+ key +:+ " updated successfully.")) 200
          ∧ ∃ n dd k,
              adapt_col (field "name" req) = inr n
              ∧ adapt_col (field "description" req) = inr dd
              ∧ id_in key = inr k
              ∧ table w' = alter (λ _, (n, dd)) k (table w)
              ∧ dom (table w') = dom (table w))
       ∨ (status_code r = 500 ∧ table w' = table w)).
Proof.
  intros Hb Hr.
  pose proof (update_item_try_outcomes adapt_col id_in req w d Hb) as H.
  cbv zeta in H. unfold route_params_get in H. rewrite Hr in H. simpl in H.
  change (update_item req w) with (handle Update req w).
  rewrite handle_catch. simpl.
  destruct (update_item_try adapt_col id_in req w) as [[r|e] w'].
  - exists r, w'.
    destruct H as [(Hf & -> & ->)
                  |(Ht & -> & (n & dd & ko & ? & ? & Hko & Htab) & ? & _)].
    + split; [done|]. split; [done|]. left.
      split; [done|]. split; [by apply andb_false_or|done].
    + split; [done|]. split; [done|]. right. left. split; [done|].
      apply id_param_str in Hko as (k & Hk & ->).
      exists n, dd, k. repeat (split; [done|]).
      rewrite Htab. apply dom_alter_L.
  - eexists _, _. split; [done|]. destruct H as (_ & ? & ? & _).
    split; [done|]. right. right. by split.
Qed.

(** X3. For an id in the route, in every world and whatever the server
    does, [delete_item] answers 200 or 500.  When it answers 200 the
    storage read the id as a key and the table is the old one without
    that key; when it answers 500 no row has changed.  The sequence does
    not move. *)
Theorem delete_item_outcomes req w key :
  route_params req !! "id" = Some key →
  ∃ r w',
    delete_item req w = (Returned r, w')
    ∧ seq w' = seq w
    ∧ ((r = Response (Text ("Item " +:+ key +:+ " deleted successfully.")) 200
        ∧ ∃ k, id_in key = inr k ∧ table w' = delete k (table w))
       ∨ (status_code r = 500 ∧ table w' = table w)).
Proof.
  intros Hr.
  pose proof (delete_item_try_outcomes adapt_col id_in req w) as H.
  unfold route_params_get in H. rewrite Hr in H. simpl in H.
  change (delete_item req w) with (handle Delete req w).
  rewrite handle_catch. simpl.
  destruct (delete_item_try adapt_col id_in req w) as [[r|e] w'].
  - exists r, w'. destruct H as (-> & (ko & Hko & Htab) & ? & _).
    split; [done|]. split; [done|]. left. split; [done|].
    apply id_param_str in Hko as (k & Hk & ->). by exists k.
  - eexists _, _. split; [done|]. destruct H as (? & ? & _).
    split; [done|]. right. by split.
Qed.

(** X4. For an id in the route, in every world and whatever the server
    does, what [read_item] answers is true of the table: a 200 carries
    the row stored under the key the id was read as, a 404 is given only
    when no row is stored under that key, and the only other answer is
    500. *)
Theorem read_item_outcomes req w key :
  route_params req !! "id" = Some key →
  ∃ r w',
    read_item req w = (Returned r, w')
    ∧ ((∃ k name description,
          id_in key = inr k ∧ table w !! k = Some (name, description)
          ∧ r = Response
                  (JsonDumps (PyDict [ ("id", PyInt k); ("name", name);
                                       ("description", description) ]))
                  200)
       ∨ (∃ k, id_in key = inr k ∧ table w !! k = None
               ∧ r = Response (Text "Item not found.") 404)
       ∨ status_code r = 500).
Proof.
  intros Hr.
  pose proof (read_item_try_outcomes adapt_col id_in req w) as H.
  unfold route_params_get in H. rewrite Hr in H. simpl in H.
  change (read_item req w) with (handle Read req w).
  rewrite handle_catch. simpl.
  destruct (read_item_try adapt_col id_in req w) as [[r|e] w'].
  - exists r, w'. split; [done|].
    destruct H as (_ & _ & _ & ko & Hko & ->).
    apply id_param_str in Hko as (k & Hk & ->). simpl.
    destruct (table w !! k) as [[name description]|] eqn:Hrow; simpl.
    + left. by exists k, name, description.
    + right. left. by exists k.
  - eexists _, _. split; [done|]. right. by right.
Qed.


Lemma create_item_try_no_get req w :
  (∀ d, json_body req ≠ Some (PyDict d)) →
  ∃ e,
    create_item_try adapt_col id_in req w = (Raised e, w)
    ∧ isinstance e DatabaseError = false.
Proof.
  intros Hv. unfold create_item_try.
  destruct (json_body req) as [v|] eqn:Hb.
  - erewrite bind_returned by (by apply get_json_some).
    destruct v; try (by eexists); by destruct (Hv d).
  - unfold get_json. rewrite Hb. by eexists.
Qed.

Lemma update_item_try_no_get req w :
  (∀ d, json_body req ≠ Some (PyDict d)) →
  ∃ e,
    update_item_try adapt_col id_in req w = (Raised e, w)
    ∧ isinstance e DatabaseError = false.
Proof.
  intros Hv. unfold update_item_try. cbv zeta.
  destruct (json_body req) as [v|] eqn:Hb.
  - erewrite bind_returned by (by apply get_json_some).
    destruct v; try (by eexists); by destruct (Hv d).
  - unfold get_json. rewrite Hb. by eexists.
Qed.

Lemma object_or_not req :
  (∃ d, json_body req = Some (PyDict d)) ∨ (∀ d, json_body req ≠ Some (PyDict d)).
Proof.
  destruct (json_body req) as [[]|]; try (by right); left; by eexists.
Qed.

(** The calls made by a [try] block, for every handler and request. *)
Lemma try_block_calls h req w :
  match try_block h req w with
  | (Returned r, w') =>
      status_code r ≠ 500
      ∧ ((status_code r = 400 ∧ events w' = events w)
         ∨ events w' = (calls_of h req ++ events w)%list)
  | (Raised e, w') =>
      ∃ evs, events w' = (evs ++ events w)%list
             ∧ evs `suffix_of` calls_of h req
  end.
Proof.
  destruct h; simpl.
  - destruct (object_or_not req) as [[d Hb]|Hv].
    + pose proof (create_item_try_outcomes adapt_col id_in req w d Hb) as H.
      cbv zeta in H.
      destruct (create_item_try adapt_col id_in req w) as [[r|e] w'].
      * destruct H as [(_ & -> & ->)|(_ & -> & _ & _ & _ & ?)];
          (split; [done|]); [by left|by right].
      * by destruct H as (_ & _ & ?).
    + destruct (create_item_try_no_get req w Hv) as (e & -> & _).
      exists []. split; [done|]. apply suffix_nil.
  - pose proof (read_item_try_outcomes adapt_col id_in req w) as H.
    destruct (read_item_try adapt_col id_in req w) as [[r|e] w'].
    + destruct H as (_ & _ & ? & ko & _ & ->).
      split; [by destruct (ko ≫= _)|by right].
    + by destruct H as (_ & _ & ?).
  - destruct (object_or_not req) as [[d Hb]|Hv].
    + pose proof (update_item_try_outcomes adapt_col id_in req w d Hb) as H.
      cbv zeta in H.
      destruct (update_item_try adapt_col id_in req w) as [[r|e] w'].
      * destruct H as [(_ & -> & ->)|(_ & -> & _ & _ & ?)];
          (split; [done|]); [by left|by right].
      * by destruct H as (_ & _ & _ & ?).
    + destruct (update_item_try_no_get req w Hv) as (e & -> & _).
      exists []. split; [done|]. apply suffix_nil.
  - pose proof (delete_item_try_outcomes adapt_col id_in req w) as H.
    destruct (delete_item_try adapt_col id_in req w) as [[r|e] w'].
    + destruct H as (-> & _ & _ & ?). split; [done|by right].
    + by destruct H as (_ & _ & ?).
  - pose proof (get_all_items_try_outcomes adapt_col id_in req w) as H.
    destruct (get_all_items_try adapt_col id_in req w) as [[r|e] w'].
    + destruct H as (_ & _ & ? & ->).
      split; [by destruct (decide _)|by right].
    + by destruct H as (_ & _ & ?).
Qed.

(** X6. Every handler, on every request and in every world, talks to
    the pool and the server in one fixed order: [getconn], one
    [execute], [commit] for the three handlers that write, [putconn].
    The statement is the handler's own constant text and the values of
    the request are passed beside it as parameters.  A run that fails
    stops somewhere along this list; a 400 makes none of the calls; any
    other answer than 500 means all of them were made. *)
Theorem calls_in_order h req w :
  ∃ r w' evs,
    handle h req w = (Returned r, w')
    ∧ events w' = (evs ++ events w)%list
    ∧ evs `suffix_of` calls_of h req
    ∧ (status_code r = 500
       ∨ (status_code r = 400 ∧ evs = [])
       ∨ evs = calls_of h req).
Proof.
  pose proof (try_block_calls h req w) as H. rewrite handle_catch.
  destruct (try_block h req w) as [[r|e] w'].
  - destruct H as (_ & [(? & ?)|?]).
    + exists r, w', []. split; [done|]. split; [done|].
      split; [apply suffix_nil|]. right. by left.
    + exists r, w', (calls_of h req). split; [done|]. split; [done|].
      split; [done|]. right. by right.
  - destruct H as (evs & ? & ?).
    eexists _, _, evs. split; [done|]. split; [done|]. split; [done|].
    by left.
Qed.

Lemma get_db_connection_exhausted w :
  idle (db_pool w) = O → used (db_pool w) = maxconn (db_pool w) →
  get_db_connection w
  = (Raised (mk_exn PoolError "connection pool exhausted"),
     add_log "Error getting connection from pool: connection pool exhausted" w).
Proof.
  intros Hi Hu.
  unfold get_db_connection, try_except, getconn, bind, gets, modify, raise.
  rewrite Hi, Hu, Nat.eqb_refl. done.
Qed.

(** X7. Once the pool has no idle connection and [maxconn] are out,
    every request that gets as far as asking for a connection is
    answered 500 with "An unexpected error occurred.": the pool's error
    is not a [DatabaseError].  Two lines are logged, one by
    [get_db_connection] and one by the handler, nothing else changes,
    and so the same holds for every request after it. *)
Theorem pool_exhausted_500 h req w :
  idle (db_pool w) = O → used (db_pool w) = maxconn (db_pool w) →
  wants_connection h req →
  handle h req w
  = (Returned (Response (Text "An unexpected error occurred.") 500),
     add_log "Unexpected error: connection pool exhausted"
       (add_log "Error getting connection from pool: connection pool exhausted"
          w)).
Proof.
  intros Hi Hu Hreq. rewrite handle_catch.
  pose proof (get_db_connection_exhausted w Hi Hu) as Hg.
  destruct h; simpl in *;
    unfold create_item_try, read_item_try, update_item_try, delete_item_try,
      get_all_items_try;
    cbv zeta;
    try (by erewrite bind_raised by exact Hg).
  - destruct Hreq as ((d & Hb) & Hn & Hd). unfold field in Hn, Hd.
    rewrite Hb in Hn, Hd.
    erewrite bind_returned by (by apply get_json_some).
    erewrite bind_returned by reflexivity.
    erewrite bind_returned by reflexivity.
    rewrite Hn, Hd. simpl. by erewrite bind_raised by exact Hg.
  - destruct Hreq as ((d & Hb) & Hn & Hd). unfold field in Hn, Hd.
    rewrite Hb in Hn, Hd.
    erewrite bind_returned by (by apply get_json_some).
    erewrite bind_returned by reflexivity.
    erewrite bind_returned by reflexivity.
    rewrite Hn, Hd. simpl. by erewrite bind_raised by exact Hg.
Qed.

Local Abbreviation serve := (serve adapt_col id_in).

(** One request and the pool: within bounds, same configuration, and
    the connections that are out are those that were, or one more. *)
Lemma handle_pool h req w :
  pool_ok w →
  pool_ok (handle h req w).2
  ∧ same_config (db_pool (handle h req w).2) (db_pool w)
  ∧ (used (db_pool (handle h req w).2) = used (db_pool w)
     ∨ used (db_pool (handle h req w).2) = S (used (db_pool w))).
Proof.
  intros Hok.
  pose proof (try_block_phase adapt_col id_in w h req w (in_phase_start w Hok))
    as H.
  rewrite handle_catch.
  destruct (try_block h req w) as [[r|e] w1]; simpl.
  - destruct H as [(? & ? & evs & _ & ? & _)|(? & ? & evs & _ & ? & _)];
      auto.
  - destruct H as ([] & ? & ? & evs & _ & ? & _); auto.
Qed.

Lemma serve_cons h req rs w :
  serve ((h, req) :: rs) w = serve rs (handle h req w).2.
Proof. done. Qed.

Lemma serve_pool rs w :
  pool_ok w →
  pool_ok (serve rs w)
  ∧ same_config (db_pool (serve rs w)) (db_pool w)
  ∧ (used (db_pool w) ≤ used (db_pool (serve rs w))
     ≤ used (db_pool w) + length rs)%nat.
Proof.
  revert w. induction rs as [|[h req] rs IH]; intros w Hok.
  - split; [done|]. split; [done|]. simpl. lia.
  - rewrite serve_cons.
    destruct (handle_pool h req w Hok) as (Hok1 & (? & ? & ?) & Hu).
    destruct (IH _ Hok1) as (? & (? & ? & ?) & ?).
    split; [done|]. split; [split; [|split]; congruence|]. simpl.
    destruct Hu as [Hu|Hu]; rewrite Hu in *; lia.
Qed.

(** X8. In a world whose pool is within its bounds, no sequence of
    requests gives a connection back to the pool that an earlier request
    kept: after the requests the pool can hand out at most as many
    connections as before, each request having cost at most one; the pool
    is still within its bounds and configured as it was. *)
Theorem capacity_never_grows rs w :
  pool_ok w →
  pool_ok (serve rs w)
  ∧ same_config (db_pool (serve rs w)) (db_pool w)
  ∧ (available (serve rs w) ≤ available w
     ≤ available (serve rs w) + length rs)%nat.
Proof.
  intros Hok. destruct (serve_pool rs w Hok) as (Hok' & Hc & Hu).
  split; [done|]. split; [done|].
  destruct Hc as (_ & Hmax & _). unfold available, pool_ok in *.
  rewrite Hmax. lia.
Qed.

(** X9. From the start of the process, over any database and whatever
    requests are served and whatever fails, at most ten connections are
    out, and the pool still has the sizes 1 and 10 and the connection
    parameters read from the environment at import. *)
Theorem at_most_ten_connections env t n fs rs :
  (used (db_pool (serve rs (startup env t n fs))) ≤ 10)%nat
  ∧ minconn (db_pool (serve rs (startup env t n fs))) = 1%nat
  ∧ maxconn (db_pool (serve rs (startup env t n fs))) = 10%nat
  ∧ kwargs (db_pool (serve rs (startup env t n fs))) = DB_CONFIG env.
Proof.
  destruct (serve_pool rs (startup env t n fs) (pool_ok_startup env t n fs))
    as (Hok & (Hmin & Hmax & Hkw) & _).
  unfold pool_ok in Hok. simpl in *. rewrite Hmax in Hok.
  repeat split; [lia|done..].
Qed.


Lemma serve_seq_ahead rs w : seq_ahead w → seq_ahead (serve rs w).
Proof.
  revert w. induction rs as [|[h req] rs IH]; intros w Hw; [done|].
  rewrite serve_cons. apply IH.
  pose proof (seq_ahead_handle adapt_col id_in h req w Hw) as H.
  by destruct (handle h req w) as [[r|e] w1].
Qed.

(** X11. No handler gives a row a key of its own choosing or changes a
    key, so the sequence stays ahead of the keys: starting from a world
    where it is, after any requests, whatever failed in them, the key
    the next [INSERT] draws is free, and a [create_item] with non-empty
    strings that the storage takes is answered 201 with that key. *)
Theorem create_item_after_any_requests rs req w d name description :
  seq_ahead w →
  json_body req = Some (PyDict d) →
  dict_lookup "name" d = Some (PyStr name) → name ≠ "" →
  dict_lookup "description" d = Some (PyStr description) → description ≠ "" →
  adapt_col (PyStr name) = inr (PyStr name) →
  adapt_col (PyStr description) = inr (PyStr description) →
  calm (serve rs w) →
  table (serve rs w) !! seq (serve rs w) = None
  ∧ ∃ w',
      create_item req (serve rs w)
      = (Returned
           (Response
              (JsonDumps
                 (PyDict [ ("id", PyInt (seq (serve rs w)));
                           ("message", PyStr "Item created successfully") ]))
              201), w')
      ∧ table w'
        = <[seq (serve rs w) := (PyStr name, PyStr description)]>
            (table (serve rs w)).
Proof.
  intros Hw Hb Hn Hne Hd Hde Han Had Hcalm.
  assert (table (serve rs w) !! seq (serve rs w) = None) as Hfresh
    by apply seq_ahead_fresh, serve_seq_ahead, Hw.
  split; [done|].
  destruct (create_item_calm adapt_col id_in req (serve rs w) d name description)
    as (w' & Hc & Ht & _); try done.
  by exists w'.
Qed.

(** X12. A handler writes to the log exactly when it answers 500.  When
    its [try] block returns, the log is what it was.  When it raises,
    the handler logs one line that ends with the message of the
    exception, the message the response does not carry; below it there
    is at most the line [get_db_connection] logged before raising
    again. *)
Theorem log_only_on_500 h req w :
  match try_block h req w with
  | (Returned r, w1) =>
      handle h req w = (Returned r, w1)
      ∧ status_code r ≠ 500 ∧ log w1 = log w
  | (Raised e, w1) =>
      ∃ w',
        handle h req w
        = (Returned
             (Response (Text (if isinstance e DatabaseError
                              then "Database error occurred."
                              else "An unexpected error occurred.")) 500), w')
        ∧ ∃ below,
            log w'
            = ((if isinstance e DatabaseError
                then "Database error: " else "Unexpected error: ")
               +:+ exn_msg e) :: (below ++ log w)%list
            ∧ (below = []
               ∨ ∃ e', below = ["Error getting connection from pool: "
                                 +:+ exn_msg e'])
  end.
Proof.
  pose proof (log_try_block adapt_col id_in (log w) h req w eq_refl) as Hl.
  pose proof (try_block_status adapt_col id_in h req w I) as Hs.
  rewrite handle_catch.
  destruct (try_block h req w) as [[r|e] w1]; [done|].
  eexists. split; [done|]. simpl. unfold error_log.
  destruct Hl as [->|[e' ->]].
  - exists []. split; [done|]. by left.
  - eexists [_]. split; [done|]. right. by exists e'.
Qed.

End Further.

(** * The further properties at work *)

Lemma create_item_outcomes_witness :
  json_body (item_request (PyStr "A") (PyStr "B") ∅)
  = Some (PyDict [ ("name", PyStr "A"); ("description", PyStr "B") ])
  ∧ ∃ r w',
      create_item text_column decimal_id
        (item_request (PyStr "A") (PyStr "B") ∅) second_call_fails
      = (Returned r, w')
      ∧ status_code r = 500 ∧ table w' = table second_call_fails.
Proof.
  split; [reflexivity|].
  destruct (create_item_outcomes text_column decimal_id
              (item_request (PyStr "A") (PyStr "B") ∅) second_call_fails
              [ ("name", PyStr "A"); ("description", PyStr "B") ] eq_refl)
    as (r & w' & Hrun & Hcases).
  exists r, w'. split; [exact Hrun|].
  assert (status_code r = 500) as Hst.
  { assert ((create_item text_column decimal_id
               (item_request (PyStr "A") (PyStr "B") ∅) second_call_fails).1
            = Returned (Response (Text "Database error occurred.") 500))
      as Hr by (vm_compute; reflexivity).
    rewrite Hrun in Hr. simpl in Hr. injection Hr as ->. reflexivity. }
  split; [exact Hst|].
  destruct Hcases as [(H400 & _)|(_ & _ & [(-> & _)|(_ & Ht)])].
  - rewrite Hst in H400. discriminate H400.
  - discriminate Hst.
  - exact Ht.
Defined.

Lemma update_item_outcomes_witness :
  route_params (item_request (PyStr "C") (PyStr "") {[ "id" := "1" ]}) !! "id"
  = Some "1"
  ∧ ∃ r w',
      update_item text_column decimal_id
        (item_request (PyStr "C") (PyStr "") {[ "id" := "1" ]}) one_row_world
      = (Returned r, w')
      ∧ seq w' = seq one_row_world.
Proof.
  assert (route_params (item_request (PyStr "C") (PyStr "") {[ "id" := "1" ]})
            !! "id" = Some "1") as Hr by reflexivity.
  split; [exact Hr|].
  destruct (update_item_outcomes text_column decimal_id
              (item_request (PyStr "C") (PyStr "") {[ "id" := "1" ]})
              one_row_world
              [ ("name", PyStr "C"); ("description", PyStr "") ] "1"
              eq_refl Hr)
    as (r & w' & Hrun & Hs & _).
  exists r, w'. split; [exact Hrun | exact Hs].
Defined.

Lemma delete_item_outcomes_witness :
  route_params (id_request "1") !! "id" = Some "1"
  ∧ ∃ r w',
      delete_item text_column decimal_id (id_request "1") second_call_fails
      = (Returned r, w')
      ∧ seq w' = seq second_call_fails.
Proof.
  assert (route_params (id_request "1") !! "id" = Some "1") as Hr
    by reflexivity.
  split; [exact Hr|].
  destruct (delete_item_outcomes text_column decimal_id (id_request "1")
              second_call_fails "1" Hr)
    as (r & w' & Hrun & Hs & _).
  exists r, w'. split; [exact Hrun | exact Hs].
Defined.

Lemma read_item_outcomes_witness :
  route_params (id_request "abc") !! "id" = Some "abc"
  ∧ ∃ r w',
      read_item text_column decimal_id (id_request "abc") one_row_world
      = (Returned r, w')
      ∧ status_code r = 500.
Proof.
  assert (route_params (id_request "abc") !! "id" = Some "abc") as Hr
    by reflexivity.
  split; [exact Hr|].
  destruct (read_item_outcomes text_column decimal_id (id_request "abc")
              one_row_world "abc" Hr)
    as (r & w' & Hrun & Hcases).
  exists r, w'. split; [exact Hrun|].
  destruct Hcases as [(k & _ & _ & Hk & _)|[(k & Hk & _)|Hst]];
    [discriminate Hk | discriminate Hk | exact Hst].
Defined.

Lemma pool_exhausted_500_witness :
  idle (db_pool used_up_world) = O
  ∧ used (db_pool used_up_world) = maxconn (db_pool used_up_world)
  ∧ handle text_column decimal_id Read (id_request "1") used_up_world
    = (Returned (Response (Text "An unexpected error occurred.") 500),
       add_log "Unexpected error: connection pool exhausted"
         (add_log
            "Error getting connection from pool: connection pool exhausted"
            used_up_world)).
Proof.
  assert (idle (db_pool used_up_world) = O) as Hi by (vm_compute; reflexivity).
  assert (used (db_pool used_up_world) = maxconn (db_pool used_up_world))
    as Hu by (vm_compute; reflexivity).
  split; [exact Hi|]. split; [exact Hu|].
  exact (pool_exhausted_500 text_column decimal_id Read (id_request "1")
           used_up_world Hi Hu I).
Defined.

Lemma capacity_never_grows_witness :
  pool_ok fresh_world
  ∧ (available
       (serve text_column decimal_id
          [ (Create, leaking_request); (Read, id_request "1") ] fresh_world)
     ≤ available fresh_world)%nat.
Proof.
  assert (pool_ok fresh_world) as Hok by (unfold pool_ok; simpl; lia).
  split; [exact Hok|].
  destruct (capacity_never_grows text_column decimal_id
              [ (Create, leaking_request); (Read, id_request "1") ]
              fresh_world Hok) as (_ & _ & Hle & _).
  exact Hle.
Defined.


Lemma create_item_after_any_requests_witness :
  seq_ahead second_call_fails
  ∧ calm (serve text_column decimal_id
            [ (Create, item_request (PyStr "A") (PyStr "B") ∅);
              (Delete, id_request "7") ] second_call_fails)
  ∧ ∃ w',
      create_item text_column decimal_id
        (item_request (PyStr "A") (PyStr "B") ∅)
        (serve text_column decimal_id
           [ (Create, item_request (PyStr "A") (PyStr "B") ∅);
             (Delete, id_request "7") ] second_call_fails)
      = (Returned
           (Response
              (JsonDumps
                 (PyDict [ ("id", PyInt 2);
                           ("message", PyStr "Item created successfully") ]))
              201), w').
Proof.
  assert (seq_ahead second_call_fails) as Hw.
  { split; [|intros t' Ht; discriminate Ht].
    intros k [x Hx]. simpl in Hx. rewrite lookup_empty in Hx. discriminate Hx. }
  assert (calm (serve text_column decimal_id
                  [ (Create, item_request (PyStr "A") (PyStr "B") ∅);
                    (Delete, id_request "7") ] second_call_fails)) as Hcalm
    by (split; [vm_compute; reflexivity | vm_compute; lia]).
  split; [exact Hw|]. split; [exact Hcalm|].
  destruct (create_item_after_any_requests text_column decimal_id
              [ (Create, item_request (PyStr "A") (PyStr "B") ∅);
                (Delete, id_request "7") ]
              (item_request (PyStr "A") (PyStr "B") ∅) second_call_fails
              [ ("name", PyStr "A"); ("description", PyStr "B") ] "A" "B"
              Hw eq_refl eq_refl ltac:(discriminate) eq_refl
              ltac:(discriminate) eq_refl eq_refl Hcalm)
    as (_ & w' & Hrun & _).
  exists w'. exact Hrun.
Defined.
